(** * Image generator client: the Gemini service wrapper and the App controller

    A shallow embedding of [src/types.ts], [src/services/geminiService.ts]
    and the state handlers of [src/App.tsx], with the properties the
    specification states about them.

    Conventions.
    - A JavaScript string is its sequence of UTF-16 code units ([list N]).
    - An optional property of an object is an [option]; [None] is the
      JavaScript [undefined].
    - A function that may throw returns a [Result]; an [async] function is
      a computation [M A] over the state of the page, its rejection being
      the [Throw] outcome.
    - What the page does to the outside (calls of the remote model, the
      console, object URLs, random ids, the clock, the file reader) is
      recorded, oldest first, in the [events] of the state; what the
      outside answers is given by the functions of a [Browser]. *)

From Stdlib Require Import NArith ZArith String Ascii Lia.
From stdpp Require Import base option list.

Local Open Scope N_scope.

(* ===================================================================== *)
(** ** JavaScript strings                                                 *)
(* ===================================================================== *)

Abbreviation jsstring := (list N).

(** Code units of a source literal, which Rocq holds as UTF-8 bytes. *)
Fixpoint utf16_of_utf8 (bs : list N) : jsstring :=
  match bs with
  | [] => []
  | b0 :: r0 =>
    if b0 <? 0x80 then b0 :: utf16_of_utf8 r0
    else match r0 with
    | [] => [b0]
    | b1 :: r1 =>
      if b0 <? 0xE0 then ((b0 - 0xC0) * 64 + (b1 - 0x80)) :: utf16_of_utf8 r1
      else match r1 with
      | [] => [b0; b1]
      | b2 :: r2 =>
        if b0 <? 0xF0
        then ((b0 - 0xE0) * 4096 + (b1 - 0x80) * 64 + (b2 - 0x80))
               :: utf16_of_utf8 r2
        else match r2 with
        | [] => [b0; b1; b2]
        | b3 :: r3 =>
          let cp := (b0 - 0xF0) * 262144 + (b1 - 0x80) * 4096
                    + (b2 - 0x80) * 64 + (b3 - 0x80) in
          (0xD800 + (cp - 0x10000) / 1024)
            :: (0xDC00 + (cp - 0x10000) mod 1024) :: utf16_of_utf8 r3
        end
      end
    end
  end.

Definition str (s : string) : jsstring :=
  utf16_of_utf8 (map N_of_ascii (list_ascii_of_string s)).
Arguments str : simpl never.

(** ECMAScript WhiteSpace and LineTerminator code points, the ones
    [String.prototype.trim] removes. *)
Definition isWhiteSpace (c : N) : bool :=
  (c =? 0x09) || (c =? 0x0A) || (c =? 0x0B) || (c =? 0x0C) || (c =? 0x0D)
  || (c =? 0x20) || (c =? 0xA0) || (c =? 0x1680)
  || ((0x2000 <=? c) && (c <=? 0x200A))
  || (c =? 0x2028) || (c =? 0x2029) || (c =? 0x202F) || (c =? 0x205F)
  || (c =? 0x3000) || (c =? 0xFEFF).

Fixpoint trimStart (s : jsstring) : jsstring :=
  match s with
  | [] => []
  | c :: r => if isWhiteSpace c then trimStart r else s
  end.

Definition trimEnd (s : jsstring) : jsstring := rev (trimStart (rev s)).

(** [s.trim()] *)
Definition trim (s : jsstring) : jsstring := trimEnd (trimStart s).

Fixpoint startsWith (s pat : jsstring) {struct pat} : bool :=
  match pat, s with
  | [], _ => true
  | _ :: _, [] => false
  | p :: pat', c :: s' => (c =? p) && startsWith s' pat'
  end.

(** [s.includes(pat)] *)
Fixpoint includes (s pat : jsstring) : bool :=
  startsWith s pat
  || match s with
     | [] => false
     | _ :: r => includes r pat
     end.

(** [s.split(sep)] for a separator of one code unit: the segments between
    the occurrences of [sep], in order; never the empty array. *)
Fixpoint split (sep : N) (s : jsstring) : list jsstring :=
  match s with
  | [] => [[]]
  | c :: r =>
    if c =? sep then [] :: split sep r
    else match split sep r with
         | seg :: segs => (c :: seg) :: segs
         | [] => [[c]]
         end
  end.

Definition comma : N := 0x2C.

(** The text a template literal puts for [undefined]. *)
Definition undefinedText : jsstring := Eval vm_compute in str "undefined".

(** What a template literal [`${v}`] makes of a possibly absent string. *)
Definition template (v : option jsstring) : jsstring :=
  match v with
  | Some s => s
  | None => undefinedText
  end.

(** A string as a condition: only the empty string is falsy. *)
Definition truthy (s : jsstring) : bool :=
  match s with
  | [] => false
  | _ :: _ => true
  end.

(* ===================================================================== *)
(** ** Errors and outcomes                                                *)
(* ===================================================================== *)

(** The error objects that travel through the code: [new Error(message)]
    and the engine's [TypeError]. A thrown value that is no object with a
    [message] ([undefined], [null]) is outside this type. *)
Inductive JsError : Type :=
  | Error (message : jsstring)
  | TypeError (message : jsstring).

Definition message (e : JsError) : jsstring :=
  match e with
  | Error m => m
  | TypeError m => m
  end.

Inductive Result (A : Type) : Type :=
  | Return (a : A)
  | Throw (e : JsError).
Arguments Return {A} a.
Arguments Throw {A} e.

(* ===================================================================== *)
(** ** types.ts                                                           *)
(* ===================================================================== *)

Inductive AspectRatio : Type := Ratio_1_1 | Ratio_9_16 | Ratio_16_9.

(** The string each member of the union type is. *)
Definition AspectRatio_value (r : AspectRatio) : jsstring :=
  match r with
  | Ratio_1_1 => str "1:1"
  | Ratio_9_16 => str "9:16"
  | Ratio_16_9 => str "16:9"
  end.

Inductive GenerationMode : Type := TEXT_TO_IMAGE | IMAGE_TO_IMAGE.

Definition GenerationMode_eqb (a b : GenerationMode) : bool :=
  match a, b with
  | TEXT_TO_IMAGE, TEXT_TO_IMAGE => true
  | IMAGE_TO_IMAGE, IMAGE_TO_IMAGE => true
  | _, _ => false
  end.

Module GeneratedImage.
Record t : Type := mk {
  id : jsstring;
  url : jsstring;
  prompt : jsstring;
  aspectRatio : AspectRatio;
  timestamp : Z
}.
End GeneratedImage.

Module LoadingState.
Record t : Type := mk {
  isLoading : bool;
  message : jsstring
}.
End LoadingState.

(** A [File] of the browser, as far as the code looks at it. *)
Module File.
Record t : Type := mk {
  name : jsstring;
  type : jsstring
}.
End File.

Module UploadedImage.
Record t : Type := mk {
  file : File.t;
  previewUrl : jsstring;
  base64 : jsstring;
  mimeType : jsstring
}.
End UploadedImage.

(* ===================================================================== *)
(** ** The shapes of @google/genai the service builds and reads           *)
(* ===================================================================== *)

Module genai.
(** [inlineData]: every property of the SDK's shapes is optional. *)
Record Blob : Type := mkBlob {
  mimeType : option jsstring;
  data : option jsstring
}.

Record Part : Type := mkPart {
  inlineData : option Blob;
  text : option jsstring
}.

Record Content : Type := mkContent {
  parts : option (list Part)
}.

Record Candidate : Type := mkCandidate {
  content : option Content
}.

Record GenerateContentResponse : Type := mkResponse {
  candidates : option (list Candidate)
}.

Record ImageConfig : Type := mkImageConfig {
  aspectRatio : AspectRatio
}.

Record GenerateContentConfig : Type := mkConfig {
  imageConfig : ImageConfig
}.

(** The argument of [ai.models.generateContent]; [contents] is given as
    one object with a [parts] array. *)
Record GenerateContentParameters : Type := mkParameters {
  model : jsstring;
  contents : list Part;
  config : GenerateContentConfig
}.
End genai.

(** The object literals [{ text: t }] and
    [{ inlineData: { mimeType: m, data: d } }]. *)
Definition textPart (t : jsstring) : genai.Part :=
  genai.mkPart None (Some t).

Definition inlineDataPart (m : jsstring) (d : option jsstring) : genai.Part :=
  genai.mkPart (Some (genai.mkBlob (Some m) d)) None.

(* ===================================================================== *)
(** ** geminiService.ts: the response extractor                           *)
(* ===================================================================== *)

Definition MODEL_NAME : jsstring :=
  Eval vm_compute in str "gemini-2.5-flash-image".

Definition NoCandidateError : JsError :=
  Eval vm_compute in Error (str "No candidates returned from Gemini.").

Definition NoImageError : JsError :=
  Eval vm_compute in Error (str "No image data found in the response.").

(** Reading [.parts] of an absent [content], and iterating an absent
    [parts]; the texts are the ones V8 gives. *)
Definition AbsentContentError : JsError :=
  Eval vm_compute in
    TypeError (str "Cannot read properties of undefined (reading 'parts')").

Definition AbsentPartsError : JsError :=
  Eval vm_compute in TypeError (str "parts is not iterable").

(** The header the extractor puts before the data. *)
Definition pngDataUrlHeader : jsstring :=
  Eval vm_compute in str "data:image/png;base64,".

(** The [for (const part of parts)] loop: [Some url] when the loop returns
    from inside, [None] when it runs to its end. *)
Fixpoint findImagePart (parts : list genai.Part) : option jsstring :=
  match parts with
  | [] => None
  | part :: rest =>
    match genai.inlineData part with
    | Some inlineData =>
      let base64EncodeString := genai.data inlineData in
      Some (pngDataUrlHeader ++ template base64EncodeString)
    | None => findImagePart rest
    end
  end.

Definition extractImageFromResponse
    (response : genai.GenerateContentResponse) : Result jsstring :=
  match genai.candidates response with
  | None => Throw NoCandidateError
  | Some candidates =>
    if N.of_nat (length candidates) =? 0 then Throw NoCandidateError
    else
      (* candidates[0] is there, the array being non-empty *)
      match candidates !! 0%nat ≫= genai.content with
      | None => Throw AbsentContentError
      | Some content =>
        match genai.parts content with
        | None => Throw AbsentPartsError
        | Some parts =>
          match findImagePart parts with
          | Some url => Return url
          | None => Throw NoImageError
          end
        end
      end
  end.

(* ===================================================================== *)
(** ** The page: state of the App component and the outside               *)
(* ===================================================================== *)

Module HTMLInputElement.
Record t : Type := mk {
  value : jsstring
}.
End HTMLInputElement.

(** What the code does to the outside. *)
Inductive Event : Type :=
  | GenerateContent (request : genai.GenerateContentParameters)
  | ConsoleError (label : option jsstring) (e : JsError)
  | ReadAsDataURL (file : File.t)
  | CreateObjectURL (file : File.t)
  | RevokeObjectURL (url : jsstring)
  | RandomUUID
  | DateNow.

(** What the outside answers, given everything that happened before. *)
Record Browser : Type := mkBrowser {
  generateContent_answer :
    list Event -> genai.GenerateContentParameters ->
    Result genai.GenerateContentResponse;
  readAsDataURL_answer : list Event -> File.t -> Result jsstring;
  createObjectURL_answer : list Event -> File.t -> jsstring;
  randomUUID_answer : list Event -> jsstring;
  now_answer : list Event -> Z
}.

(** The [useState] cells of [App], the element [fileInputRef.current]
    points to ([None] while the file input is not mounted), and the
    events so far. *)
Record State : Type := mkState {
  mode : GenerationMode;
  prompt : jsstring;
  aspectRatio : AspectRatio;
  loading : LoadingState.t;
  uploadedImage : option UploadedImage.t;
  generatedImages : list GeneratedImage.t;
  error : option jsstring;
  fileInputRef : option HTMLInputElement.t;
  events : list Event
}.

(** The state of a freshly mounted [App]. *)
Definition initialState : State :=
  mkState TEXT_TO_IMAGE [] Ratio_1_1 (LoadingState.mk false []) None [] None
          None [].

Definition M (A : Type) : Type := State -> State * Result A.

Definition ret {A} (a : A) : M A := fun s => (s, Return a).

Definition throw {A} (e : JsError) : M A := fun s => (s, Throw e).

Definition bind {A B} (m : M A) (k : A -> M B) : M B :=
  fun s =>
    match m s with
    | (s', Return a) => k a s'
    | (s', Throw e) => (s', Throw e)
    end.

(** [try { body } catch (e) { handler e }] *)
Definition tryCatch {A} (body : M A) (handler : JsError -> M A) : M A :=
  fun s =>
    match body s with
    | (s', Return a) => (s', Return a)
    | (s', Throw e) => handler e s'
    end.

(** [try { body } finally { cleanup }] *)
Definition tryFinally {A} (body : M A) (cleanup : M unit) : M A :=
  fun s =>
    match body s with
    | (s', r) =>
      match cleanup s' with
      | (s'', Return _) => (s'', r)
      | (s'', Throw e) => (s'', Throw e)
      end
    end.

Definition liftResult {A} (r : Result A) : M A := fun s => (s, r).

Declare Scope js_scope.
Delimit Scope js_scope with js.
Notation "x <- m ;; k" := (bind m (fun x => k))
  (at level 100, m at next level, right associativity) : js_scope.
Notation "m ;; k" := (bind m (fun _ => k))
  (at level 100, right associativity) : js_scope.

(** The state setters returned by [useState]. *)
Definition setMode (v : GenerationMode) : M unit := fun s =>
  (mkState v (prompt s) (aspectRatio s) (loading s) (uploadedImage s)
           (generatedImages s) (error s) (fileInputRef s) (events s),
   Return tt).

Definition setPrompt (v : jsstring) : M unit := fun s =>
  (mkState (mode s) v (aspectRatio s) (loading s) (uploadedImage s)
           (generatedImages s) (error s) (fileInputRef s) (events s),
   Return tt).

Definition setAspectRatio (v : AspectRatio) : M unit := fun s =>
  (mkState (mode s) (prompt s) v (loading s) (uploadedImage s)
           (generatedImages s) (error s) (fileInputRef s) (events s),
   Return tt).

Definition setLoading (v : LoadingState.t) : M unit := fun s =>
  (mkState (mode s) (prompt s) (aspectRatio s) v (uploadedImage s)
           (generatedImages s) (error s) (fileInputRef s) (events s),
   Return tt).

Definition setUploadedImage (v : option UploadedImage.t) : M unit := fun s =>
  (mkState (mode s) (prompt s) (aspectRatio s) (loading s) v
           (generatedImages s) (error s) (fileInputRef s) (events s),
   Return tt).

(** The updater form, [setGeneratedImages(prev => f prev)]. *)
Definition setGeneratedImages
    (f : list GeneratedImage.t -> list GeneratedImage.t) : M unit := fun s =>
  (mkState (mode s) (prompt s) (aspectRatio s) (loading s) (uploadedImage s)
           (f (generatedImages s)) (error s) (fileInputRef s) (events s),
   Return tt).

Definition setError (v : option jsstring) : M unit := fun s =>
  (mkState (mode s) (prompt s) (aspectRatio s) (loading s) (uploadedImage s)
           (generatedImages s) v (fileInputRef s) (events s),
   Return tt).

(** [if (fileInputRef.current) fileInputRef.current.value = v] *)
Definition setFileInputValue (v : jsstring) : M unit := fun s =>
  (mkState (mode s) (prompt s) (aspectRatio s) (loading s) (uploadedImage s)
           (generatedImages s) (error s)
           (match fileInputRef s with
            | Some _ => Some (HTMLInputElement.mk v)
            | None => None
            end)
           (events s),
   Return tt).

Definition record (ev : Event) (s : State) : State :=
  mkState (mode s) (prompt s) (aspectRatio s) (loading s) (uploadedImage s)
          (generatedImages s) (error s) (fileInputRef s) (events s ++ [ev]).

Section Page.

Variable browser : Browser.

(** [await ai.models.generateContent(request)] *)
Definition generateContent (request : genai.GenerateContentParameters)
    : M genai.GenerateContentResponse := fun s =>
  (record (GenerateContent request) s,
   generateContent_answer browser (events s) request).

(** [console.error(label, e)], or [console.error(e)] without a label *)
Definition console_error (label : option jsstring) (e : JsError) : M unit :=
  fun s => (record (ConsoleError label e) s, Return tt).

(** [URL.createObjectURL(file)] and [URL.revokeObjectURL(url)] *)
Definition createObjectURL (file : File.t) : M jsstring := fun s =>
  (record (CreateObjectURL file) s,
   Return (createObjectURL_answer browser (events s) file)).

Definition revokeObjectURL (url : jsstring) : M unit := fun s =>
  (record (RevokeObjectURL url) s, Return tt).

(** [crypto.randomUUID()] and [Date.now()] *)
Definition randomUUID : M jsstring := fun s =>
  (record RandomUUID s, Return (randomUUID_answer browser (events s))).

Definition Date_now : M Z := fun s =>
  (record DateNow s, Return (now_answer browser (events s))).

(* --------------------------------------------------------------------- *)
(** *** geminiService.ts: the two calls and the file encoder              *)
(* --------------------------------------------------------------------- *)

Definition textErrorLabel : jsstring :=
  Eval vm_compute in str "Error generating image from text:".

Definition imageErrorLabel : jsstring :=
  Eval vm_compute in str "Error generating image from image:".

Definition generateImageFromText
    (prompt : jsstring) (aspectRatio : AspectRatio) : M jsstring :=
  (tryCatch
     (response <- generateContent
        (genai.mkParameters MODEL_NAME
           [textPart prompt]
           (genai.mkConfig (genai.mkImageConfig aspectRatio))) ;;
      liftResult (extractImageFromResponse response))
     (fun error =>
        console_error (Some textErrorLabel) error ;;
        throw error))%js.

Definition generateImageFromImage
    (sourceImage : UploadedImage.t) (prompt : jsstring)
    (aspectRatio : AspectRatio) : M jsstring :=
  (tryCatch
     (let base64Data :=
        split comma (UploadedImage.base64 sourceImage) !! 1%nat in
      response <- generateContent
        (genai.mkParameters MODEL_NAME
           [inlineDataPart (UploadedImage.mimeType sourceImage) base64Data;
            textPart prompt]
           (genai.mkConfig (genai.mkImageConfig aspectRatio))) ;;
      liftResult (extractImageFromResponse response))
     (fun error =>
        console_error (Some imageErrorLabel) error ;;
        throw error))%js.

(** The promise around [FileReader.readAsDataURL]: resolved with the
    reader's result, rejected with what [onerror] receives. *)
Definition fileToBase64 (file : File.t) : M jsstring := fun s =>
  (record (ReadAsDataURL file) s, readAsDataURL_answer browser (events s) file).

(* --------------------------------------------------------------------- *)
(** *** App.tsx: the handlers                                             *)
(* --------------------------------------------------------------------- *)

(** A handler is a closure of the render that created it: the state cells
    it reads are the values of that render, passed here as arguments named
    as in the source; the setters act on the state of the moment. *)

(** The handler calls the two setters and nothing else. The file input is
    rendered in image-to-image mode only: it is the render after a switch
    that attaches or detaches [fileInputRef], not the handler. *)
Definition switchMode (newMode : GenerationMode) : M unit :=
  (setMode newMode ;;
   setError None)%js.

(** [onChange] of the prompt textarea, [(e) => setPrompt(e.target.value)] *)
Definition onPromptChange (value : jsstring) : M unit :=
  setPrompt value.

Definition fileErrorMessage : jsstring :=
  Eval vm_compute in str "Không thể xử lý ảnh. Vui lòng thử ảnh khác.".

(** [files] is [event.target.files]. *)
Definition handleFileChange (files : option (list File.t)) : M unit :=
  match files ≫= (fun fs => fs !! 0%nat) with
  | Some file =>
    (tryCatch
       (base64 <- fileToBase64 file ;;
        previewUrl <- createObjectURL file ;;
        setUploadedImage
          (Some (UploadedImage.mk file previewUrl base64 (File.type file))) ;;
        setError None)
       (fun err => setError (Some fileErrorMessage)))%js
  | None => ret tt
  end.

Definition removeUploadedImage (uploadedImage : option UploadedImage.t)
    : M unit :=
  ((match uploadedImage with
    | Some image => revokeObjectURL (UploadedImage.previewUrl image)
    | None => ret tt
    end) ;;
   setUploadedImage None ;;
   setFileInputValue [])%js.

Definition promptMissingMessage : jsstring :=
  Eval vm_compute in str "Vui lòng nhập mô tả.".

Definition imageMissingMessage : jsstring :=
  Eval vm_compute in str "Vui lòng tải ảnh lên để biến đổi.".

Definition genericErrorMessage : jsstring :=
  Eval vm_compute in str "Đã xảy ra lỗi. Vui lòng thử lại.".

Definition safetyErrorMessage : jsstring :=
  Eval vm_compute in
    str "Mô tả bị hệ thống an toàn chặn. Vui lòng thử mô tả khác.".

(** The text looked for in the message of what was thrown. *)
Definition SAFETY : jsstring := Eval vm_compute in str "SAFETY".

Definition busy : LoadingState.t :=
  Eval vm_compute in LoadingState.mk true (str "Đang tạo tác phẩm...").

Definition idle : LoadingState.t := LoadingState.mk false [].

(** The [if / else if] in the [try] block that yields [imageUrl]; the
    variable keeps its initial [''] when neither branch is taken. *)
Definition requestImage
    (mode : GenerationMode) (prompt : jsstring)
    (uploadedImage : option UploadedImage.t) (aspectRatio : AspectRatio)
    : M jsstring :=
  if GenerationMode_eqb mode TEXT_TO_IMAGE
  then generateImageFromText prompt aspectRatio
  else
    match GenerationMode_eqb mode IMAGE_TO_IMAGE, uploadedImage with
    | true, Some image => generateImageFromImage image prompt aspectRatio
    | _, _ => ret []
    end.

(** The message the [catch] block derives from what was thrown. *)
Definition errorMessageOf (err : JsError) : jsstring :=
  if truthy (message err) && includes (message err) SAFETY
  then safetyErrorMessage
  else genericErrorMessage.

Definition handleGenerate
    (mode : GenerationMode) (prompt : jsstring)
    (uploadedImage : option UploadedImage.t) (aspectRatio : AspectRatio)
    : M unit :=
  if negb (truthy (trim prompt))
  then setError (Some promptMissingMessage)
  else if GenerationMode_eqb mode IMAGE_TO_IMAGE
          && match uploadedImage with Some _ => false | None => true end
  then setError (Some imageMissingMessage)
  else
    (setLoading busy ;;
     setError None ;;
     tryFinally
       (tryCatch
          (imageUrl <- requestImage mode prompt uploadedImage aspectRatio ;;
           id <- randomUUID ;;
           timestamp <- Date_now ;;
           let newImage :=
             GeneratedImage.mk id imageUrl prompt aspectRatio timestamp in
           setGeneratedImages (fun prev => newImage :: prev))
          (fun err =>
             console_error None err ;;
             setError (Some (errorMessageOf err))))
       (setLoading idle))%js.

(** The handlers as the current render wires them to the page. *)
Definition clickGenerate : M unit := fun s =>
  handleGenerate (mode s) (prompt s) (uploadedImage s) (aspectRatio s) s.

Definition clickRemove : M unit := fun s =>
  removeUploadedImage (uploadedImage s) s.

(** What the user can do on the page, each through the handlers of the
    current render. [perform] is the run of the handler; the re-attachment
    of [fileInputRef] by the render that follows a mode switch is left
    out of it. *)
Inductive Action : Type :=
  | SwitchMode (newMode : GenerationMode)
  | EditPrompt (value : jsstring)
  | ChooseRatio (ratio : AspectRatio)
  | ChooseFile (files : option (list File.t))
  | RemoveImage
  | Generate.

Definition perform (act : Action) : M unit :=
  match act with
  | SwitchMode newMode => switchMode newMode
  | EditPrompt value => onPromptChange value
  | ChooseRatio ratio => setAspectRatio ratio
  | ChooseFile files => handleFileChange files
  | RemoveImage => clickRemove
  | Generate => clickGenerate
  end.

Fixpoint performAll (acts : list Action) (s : State) : State :=
  match acts with
  | [] => s
  | act :: rest => performAll rest (perform act s).1
  end.

End Page.

(* ===================================================================== *)
(** ** The vocabulary of the specification                                *)
(* ===================================================================== *)

(** [pat] occurs in [s] as a contiguous run. *)
Definition isSubstring (pat s : jsstring) : Prop :=
  exists l r, s = l ++ pat ++ r.

(** Number of occurrences of the code unit [c] in [s]. *)
Fixpoint occurrences (c : N) (s : jsstring) : nat :=
  match s with
  | [] => 0%nat
  | d :: r => if d =? c then S (occurrences c r) else occurrences c r
  end.

(** What follows the first [sep] of [s]. *)
Fixpoint afterFirst (sep : N) (s : jsstring) : jsstring :=
  match s with
  | [] => []
  | c :: r => if c =? sep then r else afterFirst sep r
  end.

(** Follows the specification's words, not the code: the string 'with its
    data-URL prefix (everything up to and including the first comma)
    stripped'. *)
Definition stripDataUrlPrefix (s : jsstring) : jsstring :=
  afterFirst comma s.

(** The run of [s] before its first [sep] (all of [s] without one). *)
Fixpoint upTo (sep : N) (s : jsstring) : jsstring :=
  match s with
  | [] => []
  | c :: r => if c =? sep then [] else c :: upTo sep r
  end.

(** The requests sent to the remote model, and the object URLs released,
    among the events. *)
Definition requests (evs : list Event)
    : list genai.GenerateContentParameters :=
  omap (fun ev => match ev with GenerateContent q => Some q | _ => None end)
       evs.

Definition revoked (evs : list Event) : list jsstring :=
  omap (fun ev => match ev with RevokeObjectURL u => Some u | _ => None end)
       evs.

(** The [submitting] state of the controller: what [handleGenerate] has
    made of [s] when it awaits the remote call. *)
Definition submitting (s : State) : State :=
  mkState (mode s) (prompt s) (aspectRatio s) busy (uploadedImage s)
          (generatedImages s) None (fileInputRef s) (events s).

(** The two ways a submission is invalid, and its being valid. *)
Definition invalidSubmission
    (m : GenerationMode) (p : jsstring) (u : option UploadedImage.t) : Prop :=
  trim p = [] \/ (m = IMAGE_TO_IMAGE /\ u = None).

Definition validSubmission
    (m : GenerationMode) (p : jsstring) (u : option UploadedImage.t) : Prop :=
  trim p <> [] /\ (m = IMAGE_TO_IMAGE -> u <> None).

(** [s] after the events [evs], every cell of the component as it was. *)
Definition recordAll (evs : list Event) (s : State) : State :=
  mkState (mode s) (prompt s) (aspectRatio s) (loading s) (uploadedImage s)
          (generatedImages s) (error s) (fileInputRef s) (events s ++ evs).

(** What a call of the service makes of the remote answer. *)
Definition outcomeOf (answer : Result genai.GenerateContentResponse)
    : Result jsstring :=
  match answer with
  | Return response => extractImageFromResponse response
  | Throw e => Throw e
  end.

(** The payloads the Request Builder assembles. *)
Definition textRequest (p : jsstring) (a : AspectRatio)
    : genai.GenerateContentParameters :=
  genai.mkParameters MODEL_NAME
    [genai.mkPart None (Some p)]
    (genai.mkConfig (genai.mkImageConfig a)).

Definition imageRequest
    (mime : jsstring) (bytes : option jsstring) (p : jsstring)
    (a : AspectRatio) : genai.GenerateContentParameters :=
  genai.mkParameters MODEL_NAME
    [genai.mkPart (Some (genai.mkBlob (Some mime) bytes)) None;
     genai.mkPart None (Some p)]
    (genai.mkConfig (genai.mkImageConfig a)).

(** The parts the first candidate carries; none when it has no content or
    its content has no parts. *)
Definition carriedParts (c : genai.Candidate) : list genai.Part :=
  default [] (genai.content c ≫= genai.parts).

Definition carriesInlineData (p : genai.Part) : Prop :=
  genai.inlineData p <> None.

(** The contract of the Response Extractor, in the specification's words,
    for one reply. *)
Definition extractorContract (response : genai.GenerateContentResponse)
    : Prop :=
  ((genai.candidates response = None \/ genai.candidates response = Some [])
   -> extractImageFromResponse response = Throw NoCandidateError)
  /\ (forall c cs,
        genai.candidates response = Some (c :: cs) ->
        Forall (fun p => ~ carriesInlineData p) (carriedParts c) ->
        extractImageFromResponse response = Throw NoImageError)
  /\ (forall c cs before p after blob,
        genai.candidates response = Some (c :: cs) ->
        carriedParts c = before ++ p :: after ->
        Forall (fun p => ~ carriesInlineData p) before ->
        genai.inlineData p = Some blob ->
        extractImageFromResponse response
        = Return (str "data:image/png;base64," ++ template (genai.data blob))).

(** The first candidate, when there is one, has a content with a parts
    list. *)
Definition firstCandidateHasParts (response : genai.GenerateContentResponse)
    : Prop :=
  forall c cs,
    genai.candidates response = Some (c :: cs) ->
    exists ps, genai.content c ≫= genai.parts = Some ps.

(* ===================================================================== *)
(** ** Sample inputs                                                      *)
(* ===================================================================== *)

Definition replyWithParts (ps : list genai.Part)
    : genai.GenerateContentResponse :=
  genai.mkResponse (Some [genai.mkCandidate (Some (genai.mkContent (Some ps)))]).

(** [{candidates:[{content:{parts:[{inlineData:{data:"AAAA"}}]}}]}] *)
Definition replyAAAA : genai.GenerateContentResponse :=
  replyWithParts
    [genai.mkPart (Some (genai.mkBlob None (Some (str "AAAA")))) None].

(** [{candidates:[{}]}]: a candidate without content. *)
Definition replyWithoutContent : genai.GenerateContentResponse :=
  genai.mkResponse (Some [genai.mkCandidate None]).

Definition catFile : File.t := File.mk (str "cat.png") (str "image/png").

Definition catImage : UploadedImage.t :=
  UploadedImage.mk catFile (str "blob:cat")
                   (str "data:image/png;base64,Q0FU") (str "image/png").

Definition dogFile : File.t := File.mk (str "dog.png") (str "image/png").

(** An uploaded image whose text has a second comma, and one whose text
    has none. *)
Definition twoCommaImage : UploadedImage.t :=
  UploadedImage.mk catFile (str "blob:cat")
                   (str "data:image/png;base64,AA,BB") (str "image/png").

Definition noCommaImage : UploadedImage.t :=
  UploadedImage.mk catFile (str "blob:cat") (str "data:") (str "image/png").

(** A browser whose remote model always gives [answer] and whose file
    reader always gives [read]; its object URLs and random ids are numbered
    by the count of the events before, which is also its clock. *)
Definition scriptedBrowser
    (answer : Result genai.GenerateContentResponse)
    (read : Result jsstring) : Browser :=
  mkBrowser (fun _ _ => answer) (fun _ _ => read)
            (fun evs _ => str "blob:" ++ [48 + N.of_nat (length evs)])
            (fun evs => str "uuid-" ++ [48 + N.of_nat (length evs)])
            (fun evs => Z.of_nat (length evs)).

Definition pictureDataUrl : jsstring :=
  Eval vm_compute in str "data:image/png;base64,RE9H".

(** A browser whose remote model answers with an image, and one whose
    remote model rejects the prompt. *)
Definition imageBrowser : Browser :=
  scriptedBrowser (Return replyAAAA) (Return pictureDataUrl).

Definition safetyBrowser : Browser :=
  scriptedBrowser
    (Throw (Error (str "Request blocked: SAFETY"))) (Return pictureDataUrl).

Definition redCube : jsstring := Eval vm_compute in str "a red cube".

Definition oldImage : GeneratedImage.t :=
  GeneratedImage.mk (str "uuid-0") (str "data:image/png;base64,BBBB")
                    (str "a blue ball") Ratio_16_9 0.

(** A page in text-to-image mode with one image in its history, and the
    same page in image-to-image mode with the cat uploaded. *)
Definition galleryState : State :=
  mkState TEXT_TO_IMAGE redCube Ratio_1_1 idle None [oldImage] None None [].

Definition transformState : State :=
  mkState IMAGE_TO_IMAGE redCube Ratio_1_1 idle (Some catImage) [oldImage]
          None (Some (HTMLInputElement.mk (str "cat.png"))) [].

(** The page in image-to-image mode before any upload. *)
Definition uploadState : State :=
  mkState IMAGE_TO_IMAGE [] Ratio_1_1 idle None [] None
          (Some (HTMLInputElement.mk [])) [].

(* ===================================================================== *)
(** ** App.tsx: what the component renders                                *)
(* ===================================================================== *)

Definition aspect_square : jsstring := Eval vm_compute in str "aspect-square".

Definition aspect_9_16 : jsstring := Eval vm_compute in str "aspect-[9/16]".

Definition aspect_video : jsstring := Eval vm_compute in str "aspect-video".

(** The [default] branch of the switch is out of reach of the three
    members of the type. *)
Definition getAspectRatioClass (ratio : AspectRatio) : jsstring :=
  match ratio with
  | Ratio_1_1 => aspect_square
  | Ratio_9_16 => aspect_9_16
  | Ratio_16_9 => aspect_video
  end.

(** The upload area, rendered in image-to-image mode only: the drop zone
    that opens the file dialog, or the preview with its remove button. *)
Inductive UploadArea : Type :=
  | DropZone
  | Preview (src : jsstring).

(** The latest image with its overlay and download link. *)
Record MainImage : Type := mkMainImage {
  main_className : jsstring;
  main_src : jsstring;
  main_alt : jsstring;
  main_caption : jsstring;
  main_href : jsstring;
  main_download : jsstring
}.

(** One cell of the history strip. *)
Record Thumbnail : Type := mkThumbnail {
  thumb_key : jsstring;
  thumb_className : jsstring;
  thumb_src : jsstring;
  thumb_href : jsstring
}.

(** The results column: the empty state, or the latest image and, with more
    than one image, the strip of the others. *)
Inductive ResultsColumn : Type :=
  | EmptyState
  | Gallery (main : MainImage) (strip : option (list Thumbnail)).

Definition visionaryPrefix : jsstring := Eval vm_compute in str "visionary-".

Definition pngSuffix : jsstring := Eval vm_compute in str ".png".

Definition buttonText : jsstring := Eval vm_compute in str "Tạo ảnh".

Definition renderMainImage (image : GeneratedImage.t) : MainImage :=
  mkMainImage
    (getAspectRatioClass (GeneratedImage.aspectRatio image))
    (GeneratedImage.url image)
    (GeneratedImage.prompt image)
    (GeneratedImage.prompt image)
    (GeneratedImage.url image)
    (visionaryPrefix ++ GeneratedImage.id image ++ pngSuffix).

Definition renderThumbnail (img : GeneratedImage.t) : Thumbnail :=
  mkThumbnail
    (GeneratedImage.id img)
    (getAspectRatioClass (GeneratedImage.aspectRatio img))
    (GeneratedImage.url img)
    (GeneratedImage.url img).

(** [generatedImages.length > 0 ? ... generatedImages[0] ...
    {generatedImages.length > 1 && ... generatedImages.slice(1).map(...)}
    : ...] *)
Definition renderResults (generatedImages : list GeneratedImage.t)
    : ResultsColumn :=
  match generatedImages with
  | [] => EmptyState
  | latest :: _ =>
    Gallery (renderMainImage latest)
            (if (1 <? length generatedImages)%nat
             then Some (map renderThumbnail (drop 1 generatedImages))
             else None)
  end.

(** [{mode === GenerationMode.IMAGE_TO_IMAGE && (... !uploadedImage ? ... )}] *)
Definition renderUploadArea (s : State) : option UploadArea :=
  if GenerationMode_eqb (mode s) IMAGE_TO_IMAGE
  then Some (match uploadedImage s with
             | None => DropZone
             | Some image => Preview (UploadedImage.previewUrl image)
             end)
  else None.

(** [{error && (...)}]: the banner, absent for [null] and for [''] *)
Definition renderErrorBanner (s : State) : option jsstring :=
  match error s with
  | Some text => if truthy text then Some text else None
  | None => None
  end.

(** [{loading.isLoading ? loading.message : "Tạo ảnh"}] *)
Definition renderButtonText (s : State) : jsstring :=
  if LoadingState.isLoading (loading s)
  then LoadingState.message (loading s)
  else buttonText.

(** An action the rendered page offers: the file dialog opens from the drop
    zone only, the removal is the button on the preview; the other controls
    are always there. *)
Definition offered (s : State) (act : Action) : Prop :=
  match act with
  | ChooseFile _ => renderUploadArea s = Some DropZone
  | RemoveImage => exists src, renderUploadArea s = Some (Preview src)
  | _ => True
  end.

(** Every action of [acts] is offered by the page at its turn. *)
Fixpoint offeredAll (browser : Browser) (acts : list Action) (s : State)
    : Prop :=
  match acts with
  | [] => True
  | act :: rest =>
    offered s act /\ offeredAll browser rest (perform browser act s).1
  end.

(* ===================================================================== *)
(** ** More vocabulary: the outside, seen through the events              *)
(* ===================================================================== *)

(** The errors written to the console, with their labels. *)
Definition consoleErrors (evs : list Event)
    : list (option jsstring * JsError) :=
  omap (fun ev => match ev with
                  | ConsoleError label e => Some (label, e)
                  | _ => None
                  end) evs.

(** The object URLs the browser handed out during [evs], which come after
    the events [before]. *)
Fixpoint createdAfter (browser : Browser) (before evs : list Event)
    : list jsstring :=
  match evs with
  | [] => []
  | ev :: rest =>
    match ev with
    | CreateObjectURL file =>
      createObjectURL_answer browser before file
        :: createdAfter browser (before ++ [ev]) rest
    | _ => createdAfter browser (before ++ [ev]) rest
    end
  end.

Definition created (browser : Browser) (evs : list Event) : list jsstring :=
  createdAfter browser [] evs.

(** Every object URL handed out so far has been released, in the same
    order, but the preview of the uploaded image of the moment. *)
Definition previewsAccounted (browser : Browser) (s : State) : Prop :=
  created browser (events s)
  = revoked (events s)
    ++ match uploadedImage s with
       | Some image => [UploadedImage.previewUrl image]
       | None => []
       end.

(** The request a valid submission sends and the label its failure is
    logged under, by mode. *)
Definition requestOf
    (m : GenerationMode) (p : jsstring) (u : option UploadedImage.t)
    (a : AspectRatio) : genai.GenerateContentParameters :=
  match m, u with
  | IMAGE_TO_IMAGE, Some image =>
    imageRequest (UploadedImage.mimeType image)
      (split comma (UploadedImage.base64 image) !! 1%nat) p a
  | _, _ => textRequest p a
  end.

Definition labelOf (m : GenerationMode) : jsstring :=
  match m with
  | TEXT_TO_IMAGE => textErrorLabel
  | IMAGE_TO_IMAGE => imageErrorLabel
  end.

Definition isGenerate (act : Action) : bool :=
  match act with
  | Generate => true
  | _ => false
  end.

(** Sample inputs: a file reader that fails, and a reply whose first
    inline part declares a JPEG. *)
Definition brokenReaderBrowser : Browser :=
  scriptedBrowser (Return replyAAAA) (Throw (Error (str "NotReadableError"))).

Definition jpegPart : genai.Part :=
  genai.mkPart
    (Some (genai.mkBlob (Some (str "image/jpeg")) (Some (str "/9j/")))) None.

(* ===================================================================== *)
(** ** Facts about the string operations                                  *)
(* ===================================================================== *)

Lemma startsWith_spec (s pat : jsstring) :
  startsWith s pat = true <-> exists r, s = pat ++ r.
Proof.
  revert s; induction pat as [|p pat IH]; intros s; simpl.
  - split; [intros _; by exists s | done].
  - destruct s as [|c s].
    + split; [done | intros [r Hr]; discriminate Hr].
    + rewrite andb_true_iff, N.eqb_eq, IH. split.
      * intros [-> [r ->]]. by exists r.
      * intros [r Hr]. injection Hr as -> ->. split; [done | by exists r].
Qed.

Lemma includes_spec (s pat : jsstring) :
  includes s pat = true <-> isSubstring pat s.
Proof.
  unfold isSubstring. induction s as [|c s IH].
  - simpl. rewrite orb_false_r, startsWith_spec. split.
    + intros [r Hr]. by exists [], r.
    + intros [l [r Hr]]. destruct l; [by exists r | discriminate Hr].
  - cbn [includes]. rewrite orb_true_iff, startsWith_spec, IH. split.
    + intros [[r Hr] | [l [r Hr]]].
      * by exists [], r.
      * exists (c :: l), r. by rewrite Hr.
    + intros [l [r Hr]]. destruct l as [|d l].
      * left. by exists r.
      * right. injection Hr as -> ->. by exists l, r.
Qed.

Lemma includes_empty (pat : jsstring) :
  truthy pat = true -> includes [] pat = false.
Proof. by destruct pat. Qed.

Lemma trimStart_nil_iff (s : jsstring) :
  trimStart s = [] <-> Forall (fun c => isWhiteSpace c = true) s.
Proof.
  induction s as [|c s IH]; simpl.
  - split; [constructor | done].
  - destruct (isWhiteSpace c) eqn:E.
    + rewrite IH. split; [by constructor | by inversion 1].
    + split; [done | inversion 1; congruence].
Qed.

Lemma trimStart_head (s : jsstring) (c : N) (r : jsstring) :
  trimStart s = c :: r -> isWhiteSpace c = false.
Proof.
  induction s as [|d s IH]; simpl; [done|].
  destruct (isWhiteSpace d) eqn:E; [done|]. by intros [= <- _].
Qed.

(** The trimmed prompt is empty exactly for the whitespace-only strings,
    the empty one among them. *)
Lemma trim_nil_iff (s : jsstring) :
  trim s = [] <-> Forall (fun c => isWhiteSpace c = true) s.
Proof.
  unfold trim, trimEnd. split.
  - intros H. apply trimStart_nil_iff.
    destruct (trimStart s) as [|c r] eqn:E; [done|]. exfalso.
    assert (Hn : trimStart (rev (c :: r)) = []).
    { destruct (trimStart (rev (c :: r))); [done|].
      apply (f_equal length) in H. rewrite length_rev in H. done. }
    apply trimStart_nil_iff in Hn.
    pose proof (proj1 (List.Forall_forall _ _) Hn c) as Hc.
    cbv beta in Hc. rewrite (trimStart_head _ _ _ E) in Hc.
    assert (false = true); [|done]. apply Hc. apply -> in_rev. by left.
  - intros H. apply trimStart_nil_iff in H. by rewrite H.
Qed.

Lemma split_no_sep (sep : N) (s : jsstring) :
  occurrences sep s = 0%nat -> split sep s = [s].
Proof.
  induction s as [|c s IH]; simpl; [done|].
  destruct (c =? sep); [done|]. intros H. by rewrite IH.
Qed.

Lemma split_cons (sep : N) (s : jsstring) :
  exists seg segs, split sep s = seg :: segs.
Proof.
  destruct s as [|c s]; simpl; [by eexists _, _|].
  destruct (c =? sep); [by eexists _, _|].
  destruct (split sep s); by eexists _, _.
Qed.

Lemma split_first (sep : N) (s : jsstring) :
  split sep s !! 0%nat = Some (upTo sep s).
Proof.
  induction s as [|c s IH]; simpl; [done|].
  destruct (c =? sep); [done|].
  destruct (split sep s) as [|seg segs]; simpl in *; congruence.
Qed.

(** [s.split(sep)[1]] is the run between the first and the second [sep],
    and [undefined] when [s] has no [sep]. *)
Lemma split_second (sep : N) (s : jsstring) :
  split sep s !! 1%nat
  = match occurrences sep s with
    | O => None
    | S _ => Some (upTo sep (afterFirst sep s))
    end.
Proof.
  induction s as [|c s IH]; simpl; [done|].
  destruct (c =? sep) eqn:E.
  - simpl. apply split_first.
  - destruct (split_cons sep s) as [seg [segs Hs]].
    rewrite Hs in *. exact IH.
Qed.

Lemma upTo_no_sep (sep : N) (s : jsstring) :
  occurrences sep s = 0%nat -> upTo sep s = s.
Proof.
  induction s as [|c s IH]; simpl; [done|].
  destruct (c =? sep); [done|]. intros H. by rewrite IH.
Qed.

Lemma occurrences_afterFirst (sep : N) (s : jsstring) :
  occurrences sep s = 1%nat -> occurrences sep (afterFirst sep s) = 0%nat.
Proof.
  induction s as [|c s IH]; simpl; [done|].
  destruct (c =? sep); [by intros [= ->] | done].
Qed.

(** On a string with exactly one comma, as a base64 data URL is,
    [split(',')[1]] is the string without its prefix. *)
Lemma split_comma_strips_prefix (s : jsstring) :
  occurrences comma s = 1%nat ->
  split comma s !! 1%nat = Some (stripDataUrlPrefix s).
Proof.
  intros H. rewrite split_second, H. unfold stripDataUrlPrefix.
  by rewrite upTo_no_sep by by apply occurrences_afterFirst.
Qed.

(* ===================================================================== *)
(** ** The Response Extractor                                             *)
(* ===================================================================== *)

Lemma findImagePart_none (ps : list genai.Part) :
  Forall (fun p => ~ carriesInlineData p) ps -> findImagePart ps = None.
Proof.
  induction 1 as [|p ps Hp _ IH]; simpl; [done|].
  destruct (genai.inlineData p) eqn:E; [|done].
  exfalso. apply Hp. unfold carriesInlineData. by rewrite E.
Qed.

Lemma findImagePart_first (before after : list genai.Part)
    (p : genai.Part) (blob : genai.Blob) :
  Forall (fun p => ~ carriesInlineData p) before ->
  genai.inlineData p = Some blob ->
  findImagePart (before ++ p :: after)
  = Some (str "data:image/png;base64," ++ template (genai.data blob)).
Proof.
  intros Hb Hp. induction Hb as [|q qs Hq _ IH]; simpl.
  - by rewrite Hp.
  - destruct (genai.inlineData q) eqn:E; [|done].
    exfalso. apply Hq. unfold carriesInlineData. by rewrite E.
Qed.

(** The extractor on a reply with a first candidate, through the parts
    that candidate carries. *)
Lemma extractImageFromResponse_parts
    (response : genai.GenerateContentResponse)
    (c : genai.Candidate) (cs : list genai.Candidate)
    (ps : list genai.Part) :
  genai.candidates response = Some (c :: cs) ->
  genai.content c ≫= genai.parts = Some ps ->
  extractImageFromResponse response
  = match findImagePart ps with
    | Some url => Return url
    | None => Throw NoImageError
    end.
Proof.
  intros Hc Hps. unfold extractImageFromResponse. rewrite Hc. simpl.
  destruct (genai.content c) as [ct|]; [|done]. simpl in *. by rewrite Hps.
Qed.

(** The two scenarios of the specification. *)
Example extract_no_candidates :
  extractImageFromResponse (genai.mkResponse (Some []))
  = Throw NoCandidateError
  /\ extractImageFromResponse (genai.mkResponse None) = Throw NoCandidateError.
Proof. by split. Qed.

Example extract_AAAA :
  extractImageFromResponse replyAAAA
  = Return (str "data:image/png;base64,AAAA").
Proof. reflexivity. Qed.

(** C1, as amended: for every reply whose first candidate (when there is
    one) has a content with a parts list, the extractor throws the
    no-candidates error when the reply has no candidates field or an empty
    candidate list, throws the no-image error when no part of the first
    candidate carries inline data, and otherwise returns
    [data:image/png;base64,] followed by the data of the first part, in
    order, that carries inline data (an absent data field reads
    [undefined] in the template). *)
Theorem extractImageFromResponse_contract
    (response : genai.GenerateContentResponse) :
  firstCandidateHasParts response -> extractorContract response.
Proof.
  intros Hwf. repeat split.
  - intros [H | H]; unfold extractImageFromResponse; by rewrite H.
  - intros c cs Hc Hnone. destruct (Hwf c cs Hc) as [ps Hps].
    rewrite (extractImageFromResponse_parts _ _ _ _ Hc Hps).
    unfold carriedParts in Hnone. rewrite Hps in Hnone. simpl in Hnone.
    by rewrite findImagePart_none.
  - intros c cs before p after blob Hc Hparts Hbefore Hp.
    destruct (Hwf c cs Hc) as [ps Hps].
    rewrite (extractImageFromResponse_parts _ _ _ _ Hc Hps).
    unfold carriedParts in Hparts. rewrite Hps in Hparts. simpl in Hparts.
    subst ps. by rewrite (findImagePart_first _ _ _ _ Hbefore Hp).
Qed.

Lemma extractImageFromResponse_contract_witness :
  firstCandidateHasParts replyAAAA
  /\ extractorContract replyAAAA
  /\ extractImageFromResponse replyAAAA
     = Return (str "data:image/png;base64,AAAA").
Proof.
  assert (H : firstCandidateHasParts replyAAAA).
  { intros c cs [= <- <-]. eexists. reflexivity. }
  split; [exact H|]. split.
  - exact (extractImageFromResponse_contract replyAAAA H).
  - destruct (extractImageFromResponse_contract replyAAAA H) as (_ & _ & H3).
    exact (H3 _ [] [] _ [] _ eq_refl eq_refl (List.Forall_nil _) eq_refl).
Defined.

(** C1, as stated, fails: a reply whose only candidate has no content has
    candidates and no part carrying inline data, yet the extractor throws a
    type error, which is neither the no-image error nor a returned URL. *)
Lemma extractorContract_fails_without_content :
  extractImageFromResponse replyWithoutContent = Throw AbsentContentError
  /\ ~ extractorContract replyWithoutContent.
Proof.
  split; [reflexivity|].
  intros (_ & H & _).
  specialize (H (genai.mkCandidate None) [] eq_refl (List.Forall_nil _)).
  discriminate H.
Qed.

(** C9: when the candidate list is not empty and its first candidate has
    no content field, or a content without a parts field, extraction fails
    with a type error (from reading [parts] of the absent content, or from
    iterating the absent parts), not with the no-image error, and returns
    nothing. *)
Theorem extractImageFromResponse_absent_field
    (response : genai.GenerateContentResponse)
    (c : genai.Candidate) (cs : list genai.Candidate) :
  genai.candidates response = Some (c :: cs) ->
  (genai.content c = None
   \/ exists ct, genai.content c = Some ct /\ genai.parts ct = None) ->
  (exists m, extractImageFromResponse response = Throw (TypeError m))
  /\ extractImageFromResponse response <> Throw NoImageError
  /\ extractImageFromResponse response <> Throw NoCandidateError
  /\ forall url, extractImageFromResponse response <> Return url.
Proof.
  intros Hc H. unfold extractImageFromResponse. rewrite Hc. simpl.
  destruct H as [-> | (ct & -> & Hp)]; simpl; [|rewrite Hp];
    (split; [by eexists|]); by repeat split.
Qed.

Lemma extractImageFromResponse_absent_field_witness :
  genai.candidates replyWithoutContent = Some [genai.mkCandidate None]
  /\ (exists m,
        extractImageFromResponse replyWithoutContent = Throw (TypeError m))
  /\ extractImageFromResponse replyWithoutContent <> Throw NoImageError.
Proof.
  split; [reflexivity|].
  destruct (extractImageFromResponse_absent_field
              replyWithoutContent (genai.mkCandidate None) []
              eq_refl (or_introl eq_refl)) as (H1 & H2 & _).
  exact (conj H1 H2).
Defined.

(* ===================================================================== *)
(** ** The service calls                                                  *)
(* ===================================================================== *)

Lemma recordAll_nil (s : State) : recordAll [] s = s.
Proof. destruct s. unfold recordAll. simpl. by rewrite app_nil_r. Qed.

Lemma recordAll_app (a b : list Event) (s : State) :
  recordAll b (recordAll a s) = recordAll (a ++ b) s.
Proof. unfold recordAll. simpl. by rewrite app_assoc. Qed.

Lemma requests_app (a b : list Event) :
  requests (a ++ b) = requests a ++ requests b.
Proof. apply omap_app. Qed.

Lemma revoked_app (a b : list Event) :
  revoked (a ++ b) = revoked a ++ revoked b.
Proof. apply omap_app. Qed.

Section Properties.

Variable browser : Browser.

(** A text-to-image call sends one request and logs a failure. *)
Lemma generateImageFromText_run (p : jsstring) (a : AspectRatio) (s : State) :
  generateImageFromText browser p a s
  = match outcomeOf (generateContent_answer browser (events s)
                       (textRequest p a)) with
    | Return url => (recordAll [GenerateContent (textRequest p a)] s,
                     Return url)
    | Throw e =>
      (recordAll [GenerateContent (textRequest p a);
                  ConsoleError (Some textErrorLabel) e] s,
       Throw e)
    end.
Proof.
  unfold generateImageFromText, tryCatch, bind, generateContent, liftResult,
    console_error, throw, outcomeOf, textRequest, textPart.
  destruct (generateContent_answer browser _ _) as [response|e]; simpl.
  - destruct (extractImageFromResponse response); simpl; try done.
    unfold recordAll, record. simpl. by rewrite <- app_assoc.
  - unfold recordAll, record. simpl. by rewrite <- app_assoc.
Qed.

Lemma generateImageFromImage_run
    (image : UploadedImage.t) (p : jsstring) (a : AspectRatio) (s : State) :
  let q := imageRequest (UploadedImage.mimeType image)
             (split comma (UploadedImage.base64 image) !! 1%nat) p a in
  generateImageFromImage browser image p a s
  = match outcomeOf (generateContent_answer browser (events s) q) with
    | Return url => (recordAll [GenerateContent q] s, Return url)
    | Throw e =>
      (recordAll [GenerateContent q;
                  ConsoleError (Some imageErrorLabel) e] s,
       Throw e)
    end.
Proof.
  intros q. subst q.
  unfold generateImageFromImage, tryCatch, bind, generateContent, liftResult,
    console_error, throw, outcomeOf, imageRequest, inlineDataPart, textPart.
  destruct (generateContent_answer browser _ _) as [response|e]; simpl.
  - destruct (extractImageFromResponse response); simpl; try done.
    unfold recordAll, record. simpl. by rewrite <- app_assoc.
  - unfold recordAll, record. simpl. by rewrite <- app_assoc.
Qed.

(** C3: whatever the prompt (a non-empty one in particular) and the aspect
    ratio, the text-to-image call sends exactly one request; its parts are
    one text part carrying the prompt, without inline data, and its config
    carries the aspect ratio. For the prompt [a red cube] and the ratio
    [1:1] that is [{parts:[{text:"a red cube"}],
    config:{imageConfig:{aspectRatio:"1:1"}}}]. *)
Theorem generateImageFromText_payload
    (p : jsstring) (a : AspectRatio) (s : State) :
  requests (events (generateImageFromText browser p a s).1)
  = requests (events s)
    ++ [genai.mkParameters MODEL_NAME
          [genai.mkPart None (Some p)]
          (genai.mkConfig (genai.mkImageConfig a))]
  /\ requests
       (events (generateImageFromText browser (str "a red cube") Ratio_1_1
                  s).1)
     = requests (events s)
       ++ [genai.mkParameters MODEL_NAME
             [genai.mkPart None (Some (str "a red cube"))]
             (genai.mkConfig (genai.mkImageConfig Ratio_1_1))]
  /\ AspectRatio_value Ratio_1_1 = str "1:1".
Proof.
  assert (H : forall p a,
    requests (events (generateImageFromText browser p a s).1)
    = requests (events s) ++ [textRequest p a]).
  { intros p' a'. rewrite generateImageFromText_run.
    destruct (outcomeOf _); simpl; by rewrite requests_app. }
  split; [apply H|]. split; [apply H | reflexivity].
Qed.

(** C2, as amended: for every uploaded image whose base64 text has exactly
    one comma (as a base64 data URL has), whatever the prompt, the
    image-to-image call sends exactly one request; its parts are an
    inline-data part first and the text part second, the inline data being
    the base64 text with everything up to and including its first comma
    stripped, under the uploaded image's mime type. *)
Theorem generateImageFromImage_payload
    (image : UploadedImage.t) (p : jsstring) (a : AspectRatio) (s : State) :
  occurrences comma (UploadedImage.base64 image) = 1%nat ->
  requests (events (generateImageFromImage browser image p a s).1)
  = requests (events s)
    ++ [genai.mkParameters MODEL_NAME
          [genai.mkPart
             (Some (genai.mkBlob
                      (Some (UploadedImage.mimeType image))
                      (Some (stripDataUrlPrefix (UploadedImage.base64 image)))))
             None;
           genai.mkPart None (Some p)]
          (genai.mkConfig (genai.mkImageConfig a))].
Proof.
  intros H. rewrite generateImageFromImage_run.
  rewrite (split_comma_strips_prefix _ H).
  destruct (outcomeOf _); simpl; by rewrite requests_app.
Qed.

(** What the image-to-image call sends for any uploaded image: the inline
    data is [base64.split(',')[1]]. *)
Lemma generateImageFromImage_requests
    (image : UploadedImage.t) (p : jsstring) (a : AspectRatio) (s : State) :
  requests (events (generateImageFromImage browser image p a s).1)
  = requests (events s)
    ++ [imageRequest (UploadedImage.mimeType image)
          (split comma (UploadedImage.base64 image) !! 1%nat) p a].
Proof.
  rewrite generateImageFromImage_run.
  destruct (outcomeOf _); simpl; by rewrite requests_app.
Qed.

(* --------------------------------------------------------------------- *)
(** *** Submission                                                        *)
(* --------------------------------------------------------------------- *)

(** The service call touches nothing but the events. *)
Lemma requestImage_frame
    (m : GenerationMode) (p : jsstring) (u : option UploadedImage.t)
    (a : AspectRatio) (s : State) :
  exists evs, (requestImage browser m p u a s).1 = recordAll evs s.
Proof.
  unfold requestImage. destruct m; simpl.
  - rewrite generateImageFromText_run. destruct (outcomeOf _); by eexists.
  - destruct u as [image|].
    + rewrite generateImageFromImage_run. destruct (outcomeOf _); by eexists.
    + exists []. by rewrite recordAll_nil.
Qed.

Lemma validSubmission_checks
    (m : GenerationMode) (p : jsstring) (u : option UploadedImage.t) :
  validSubmission m p u ->
  negb (truthy (trim p)) = false
  /\ GenerationMode_eqb m IMAGE_TO_IMAGE
     && match u with Some _ => false | None => true end = false.
Proof.
  intros [Hp Hu]. split.
  - by destruct (trim p).
  - destruct m, u; simpl; try done. by destruct Hu.
Qed.

(** A valid submission, step by step: the state once the remote call has
    settled decides the rest. *)
Lemma handleGenerate_valid
    (m : GenerationMode) (p : jsstring) (u : option UploadedImage.t)
    (a : AspectRatio) (s : State) :
  validSubmission m p u ->
  handleGenerate browser m p u a s
  = match requestImage browser m p u a (submitting s) with
    | (s1, Return imageUrl) =>
      (mkState (mode s1) (prompt s1) (aspectRatio s1) idle (uploadedImage s1)
         (GeneratedImage.mk (randomUUID_answer browser (events s1)) imageUrl
            p a (now_answer browser (events s1 ++ [RandomUUID]))
          :: generatedImages s1)
         (error s1) (fileInputRef s1)
         ((events s1 ++ [RandomUUID]) ++ [DateNow]),
       Return tt)
    | (s1, Throw e) =>
      (mkState (mode s1) (prompt s1) (aspectRatio s1) idle (uploadedImage s1)
         (generatedImages s1) (Some (errorMessageOf e)) (fileInputRef s1)
         (events s1 ++ [ConsoleError None e]),
       Return tt)
    end.
Proof.
  intros Hv. destruct (validSubmission_checks _ _ _ Hv) as [H1 H2].
  unfold handleGenerate. rewrite H1, H2.
  unfold bind, tryFinally, tryCatch, setLoading, setError. simpl.
  fold (submitting s).
  destruct (requestImage browser m p u a (submitting s)) as [s1 [url|e]];
    reflexivity.
Qed.

Lemma submission_valid_or_invalid
    (m : GenerationMode) (p : jsstring) (u : option UploadedImage.t) :
  validSubmission m p u \/ invalidSubmission m p u.
Proof.
  unfold validSubmission, invalidSubmission.
  destruct (trim p) as [|c r]; [by right; left|].
  destruct m, u as [image|]; try (by left); by right; right.
Qed.

(** An invalid submission sets the matching message and does nothing
    else. *)
Lemma handleGenerate_invalid
    (m : GenerationMode) (p : jsstring) (u : option UploadedImage.t)
    (a : AspectRatio) (s : State) :
  invalidSubmission m p u ->
  handleGenerate browser m p u a s
  = setError (Some (if truthy (trim p) then imageMissingMessage
                    else promptMissingMessage)) s.
Proof.
  intros [Hp | [-> ->]]; unfold handleGenerate.
  - rewrite Hp. reflexivity.
  - destruct (truthy (trim p)); reflexivity.
Qed.

(** C4: when the trimmed prompt is empty, or the mode is image-to-image
    without an uploaded image, the generate handler records no event at all
    (so it makes no remote call), sets one of the two localized validation
    messages as the error, and leaves the loading state as it was (false
    stays false). *)
Theorem handleGenerate_rejects_invalid
    (m : GenerationMode) (p : jsstring) (u : option UploadedImage.t)
    (a : AspectRatio) (s : State) :
  invalidSubmission m p u ->
  let s' := (handleGenerate browser m p u a s).1 in
  (handleGenerate browser m p u a s).2 = Return tt
  /\ events s' = events s
  /\ requests (events s') = requests (events s)
  /\ (trim p = [] -> error s' = Some promptMissingMessage)
  /\ (trim p <> [] -> error s' = Some imageMissingMessage)
  /\ loading s' = loading s
  /\ (LoadingState.isLoading (loading s) = false ->
      LoadingState.isLoading (loading s') = false).
Proof.
  intros Hi. rewrite (handleGenerate_invalid _ _ _ _ _ Hi). simpl.
  repeat split; try done.
  - by intros ->.
  - intros Hp. by destruct (trim p).
Qed.

(** C5: when the remote call of a valid submission yields an image URL, the
    handler puts in front of the history a new image made of the id drawn
    from [crypto.randomUUID()] at that moment, that URL, the submitted
    prompt, the selected aspect ratio and the time read from [Date.now()];
    it is [history[0]], and the images stored before follow it, each one
    place further and unchanged. *)
Theorem handleGenerate_prepends
    (m : GenerationMode) (p : jsstring) (u : option UploadedImage.t)
    (a : AspectRatio) (s s1 : State) (imageUrl : jsstring) :
  validSubmission m p u ->
  requestImage browser m p u a (submitting s) = (s1, Return imageUrl) ->
  let s' := (handleGenerate browser m p u a s).1 in
  let newImage :=
    GeneratedImage.mk (randomUUID_answer browser (events s1)) imageUrl p a
                      (now_answer browser (events s1 ++ [RandomUUID])) in
  generatedImages s' = newImage :: generatedImages s
  /\ generatedImages s' !! 0%nat = Some newImage
  /\ (forall i : nat, generatedImages s' !! S i = generatedImages s !! i)
  /\ error s' = None
  /\ loading s' = idle.
Proof.
  intros Hv Hr. rewrite (handleGenerate_valid _ _ _ _ _ Hv), Hr. simpl.
  destruct (requestImage_frame m p u a (submitting s)) as [evs He].
  rewrite Hr in He. simpl in He. subst s1. simpl. by repeat split.
Qed.

Lemma errorMessageOf_includes (e : JsError) :
  errorMessageOf e
  = if includes (message e) SAFETY
    then safetyErrorMessage else genericErrorMessage.
Proof.
  unfold errorMessageOf. by destruct (message e) as [|c r].
Qed.

Lemma safety_message_differs : safetyErrorMessage <> genericErrorMessage.
Proof. vm_compute. discriminate. Qed.

(** C7: a valid submission always ends with the loading state cleared,
    whether the remote call succeeded or threw; when it threw, the error
    shown is the safety message exactly when the thrown error's message
    contains [SAFETY], and the generic message exactly when it does not;
    the thrown error is logged to the console. *)
Theorem handleGenerate_settles
    (m : GenerationMode) (p : jsstring) (u : option UploadedImage.t)
    (a : AspectRatio) (s : State) :
  validSubmission m p u ->
  let s' := (handleGenerate browser m p u a s).1 in
  (handleGenerate browser m p u a s).2 = Return tt
  /\ loading s' = idle
  /\ forall s1 e,
       requestImage browser m p u a (submitting s) = (s1, Throw e) ->
       (error s' = Some safetyErrorMessage
        <-> isSubstring (str "SAFETY") (message e))
       /\ (error s' = Some genericErrorMessage
           <-> ~ isSubstring (str "SAFETY") (message e))
       /\ last (events s') = Some (ConsoleError None e).
Proof.
  intros Hv. rewrite (handleGenerate_valid _ _ _ _ _ Hv).
  destruct (requestImage browser m p u a (submitting s)) as [s1 [url|e]];
    simpl; (split; [done|]); (split; [done|]); intros s2 e' [= <- <-].
  rewrite errorMessageOf_includes, <- includes_spec.
  pose proof safety_message_differs as Hd.
  change (str "SAFETY") with SAFETY.
  destruct (includes (message e) SAFETY); repeat split;
    try done; try congruence; try (by rewrite last_snoc).
Qed.

(** C10: a submission that fails, by validation or because the remote call
    threw, leaves the history, the prompt, the aspect ratio, the mode and
    the uploaded image (and the file input) as they were; of the cells of
    the component only the error and the loading state may differ. *)
Theorem handleGenerate_failure_frame
    (m : GenerationMode) (p : jsstring) (u : option UploadedImage.t)
    (a : AspectRatio) (s : State) :
  (invalidSubmission m p u
   \/ exists s1 e,
        requestImage browser m p u a (submitting s) = (s1, Throw e)) ->
  let s' := (handleGenerate browser m p u a s).1 in
  generatedImages s' = generatedImages s
  /\ prompt s' = prompt s
  /\ aspectRatio s' = aspectRatio s
  /\ mode s' = mode s
  /\ uploadedImage s' = uploadedImage s
  /\ fileInputRef s' = fileInputRef s
  /\ s' = mkState (mode s) (prompt s) (aspectRatio s) (loading s')
                  (uploadedImage s) (generatedImages s) (error s')
                  (fileInputRef s) (events s').
Proof.
  intros H.
  assert (Hi : invalidSubmission m p u
               \/ (validSubmission m p u
                   /\ exists s1 e,
                        requestImage browser m p u a (submitting s)
                        = (s1, Throw e))).
  { destruct H as [H | H]; [by left|].
    destruct (submission_valid_or_invalid m p u); [by right | by left]. }
  clear H. destruct Hi as [Hi | [Hv (s1 & e & Hr)]].
  - rewrite (handleGenerate_invalid _ _ _ _ _ Hi). simpl. by repeat split.
  - rewrite (handleGenerate_valid _ _ _ _ _ Hv), Hr. simpl.
    destruct (requestImage_frame m p u a (submitting s)) as [evs He].
    rewrite Hr in He. simpl in He. subst s1. simpl. by repeat split.
Qed.

(** What the awaited call yields is what the extractor makes of the
    remote answer to the request built. *)
Lemma requestImage_text
    (p : jsstring) (u : option UploadedImage.t) (a : AspectRatio) (s : State) :
  (requestImage browser TEXT_TO_IMAGE p u a s).2
  = outcomeOf (generateContent_answer browser (events s) (textRequest p a)).
Proof.
  unfold requestImage. simpl. rewrite generateImageFromText_run.
  by destruct (outcomeOf _).
Qed.

Lemma requestImage_image
    (p : jsstring) (image : UploadedImage.t) (a : AspectRatio) (s : State) :
  (requestImage browser IMAGE_TO_IMAGE p (Some image) a s).2
  = outcomeOf (generateContent_answer browser (events s)
                 (imageRequest (UploadedImage.mimeType image)
                    (split comma (UploadedImage.base64 image) !! 1%nat) p a)).
Proof.
  unfold requestImage. simpl. rewrite generateImageFromImage_run.
  by destruct (outcomeOf _).
Qed.

(** A valid submission makes exactly one remote call: the text request in
    text-to-image mode, the image request in image-to-image mode. *)
Lemma handleGenerate_sends_one_request
    (m : GenerationMode) (p : jsstring) (u : option UploadedImage.t)
    (a : AspectRatio) (s : State) :
  validSubmission m p u ->
  requests (events (handleGenerate browser m p u a s).1)
  = requests (events s)
    ++ [match m, u with
        | IMAGE_TO_IMAGE, Some image =>
          imageRequest (UploadedImage.mimeType image)
            (split comma (UploadedImage.base64 image) !! 1%nat) p a
        | _, _ => textRequest p a
        end].
Proof.
  intros Hv. rewrite (handleGenerate_valid _ _ _ _ _ Hv).
  unfold requestImage. destruct m; simpl.
  - rewrite generateImageFromText_run.
    destruct (outcomeOf _); simpl; rewrite !requests_app; simpl;
      by rewrite ?app_nil_r.
  - destruct u as [image|]; [|by destruct Hv as [_ Hu]; destruct Hu].
    rewrite generateImageFromImage_run.
    destruct (outcomeOf _); simpl; rewrite !requests_app; simpl;
      by rewrite ?app_nil_r.
Qed.

(* --------------------------------------------------------------------- *)
(** *** The history over the life of the page                             *)
(* --------------------------------------------------------------------- *)

Lemma handleFileChange_history (files : option (list File.t)) (s : State) :
  generatedImages (handleFileChange browser files s).1 = generatedImages s.
Proof.
  unfold handleFileChange.
  destruct (files ≫= _) as [file|]; [|done].
  unfold tryCatch, bind, fileToBase64, createObjectURL, setUploadedImage,
    setError. simpl.
  by destruct (readAsDataURL_answer browser (events s) file).
Qed.

(** Whatever the user does, the history stays as it is or gets one image
    in front. *)
Lemma perform_history (act : Action) (s : State) :
  generatedImages (perform browser act s).1 = generatedImages s
  \/ exists image,
       generatedImages (perform browser act s).1
       = image :: generatedImages s.
Proof.
  destruct act; simpl; try (by left).
  - left. apply handleFileChange_history.
  - left. unfold clickRemove. by destruct (uploadedImage s).
  - unfold clickGenerate.
    destruct (submission_valid_or_invalid (mode s) (prompt s)
                (uploadedImage s)) as [Hv | Hi].
    + rewrite (handleGenerate_valid _ _ _ _ _ Hv).
      destruct (requestImage_frame (mode s) (prompt s) (uploadedImage s)
                  (aspectRatio s) (submitting s)) as [evs He].
      destruct (requestImage _ _ _ _ _ _) as [s1 [url|e]];
        simpl in *; subst s1; simpl; [right; by eexists | by left].
    + left. by rewrite (handleGenerate_invalid _ _ _ _ _ Hi).
Qed.

(** X21: over any sequence of actions the history only grows in front: the
    images stored at any moment stay, in their order and unchanged, behind
    all the images stored later; no action removes or reorders one. *)
Lemma performAll_history (acts : list Action) (s : State) :
  exists newer,
    generatedImages (performAll browser acts s) = newer ++ generatedImages s.
Proof.
  revert s; induction acts as [|act acts IH]; intros s; simpl.
  - by exists [].
  - destruct (IH (perform browser act s).1) as [newer ->].
    destruct (perform_history act s) as [-> | [image ->]].
    + by exists newer.
    + exists (newer ++ [image]). by rewrite <- app_assoc.
Qed.

End Properties.

(* ===================================================================== *)
(** ** Mode switch, prompt edits and the uploaded image                   *)
(* ===================================================================== *)

(** C8: a mode switch sets the mode and clears the error, and leaves the
    prompt, the aspect ratio, the uploaded image and the history (and the
    loading state and the events) as they were; an edit of the prompt
    textarea sets the prompt and leaves everything else, the error
    included, as it was. *)
Theorem switchMode_and_prompt_edit_frame
    (newMode : GenerationMode) (value : jsstring) (s : State) :
  (let s' := (switchMode newMode s).1 in
   mode s' = newMode
   /\ error s' = None
   /\ prompt s' = prompt s
   /\ aspectRatio s' = aspectRatio s
   /\ uploadedImage s' = uploadedImage s
   /\ generatedImages s' = generatedImages s
   /\ loading s' = loading s
   /\ events s' = events s)
  /\ (let s' := (onPromptChange value s).1 in
      prompt s' = value
      /\ error s' = error s
      /\ mode s' = mode s
      /\ aspectRatio s' = aspectRatio s
      /\ uploadedImage s' = uploadedImage s
      /\ generatedImages s' = generatedImages s
      /\ loading s' = loading s
      /\ fileInputRef s' = fileInputRef s
      /\ events s' = events s).
Proof. by repeat split. Qed.

(** Removing the uploaded image releases its preview URL, empties the
    slot and resets the mounted file input. *)
Lemma removeUploadedImage_releases (image : UploadedImage.t) (s : State) :
  removeUploadedImage (Some image) s
  = (mkState (mode s) (prompt s) (aspectRatio s) (loading s) None
       (generatedImages s) (error s)
       (match fileInputRef s with
        | Some _ => Some (HTMLInputElement.mk [])
        | None => None
        end)
       (events s ++ [RevokeObjectURL (UploadedImage.previewUrl image)]),
     Return tt).
Proof. reflexivity. Qed.

(** No path through the file-change handler releases an object URL. *)
Lemma handleFileChange_never_revokes
    (browser : Browser) (files : option (list File.t)) (s : State) :
  revoked (events (handleFileChange browser files s).1) = revoked (events s).
Proof.
  unfold handleFileChange.
  destruct (files ≫= _) as [file|]; [|done].
  unfold tryCatch, bind, fileToBase64, createObjectURL, setUploadedImage,
    setError. simpl.
  destruct (readAsDataURL_answer browser (events s) file); simpl;
    rewrite ?revoked_app; simpl; by rewrite ?app_nil_r.
Qed.

(** C6, where the code departs from it: on the page in image-to-image
    mode, choosing the cat file and then the dog file assigns the cat
    (preview [blob:1]) and then the dog (preview [blob:3]) as the uploaded
    image, and no object URL is released on the way: the events are the
    two file reads and the two URL creations, so [blob:1] is never
    revoked. *)
Theorem handleFileChange_replace_keeps_old_url :
  let s1 := (handleFileChange imageBrowser (Some [catFile]) uploadState).1 in
  let s2 := (handleFileChange imageBrowser (Some [dogFile]) s1).1 in
  uploadedImage s1
  = Some (UploadedImage.mk catFile (str "blob:1") pictureDataUrl (str "image/png"))
  /\ uploadedImage s2
     = Some (UploadedImage.mk dogFile (str "blob:3") pictureDataUrl
                              (str "image/png"))
  /\ events s2 = [ReadAsDataURL catFile; CreateObjectURL catFile;
                  ReadAsDataURL dogFile; CreateObjectURL dogFile]
  /\ revoked (events s2) = [].
Proof. vm_compute. by repeat split. Qed.

(** The removal on the same page: the preview of the cat is released, the
    slot emptied and the file input reset. *)
Lemma clickRemove_transformState :
  let s' := (clickRemove transformState).1 in
  revoked (events s') = [str "blob:cat"]
  /\ uploadedImage s' = None
  /\ fileInputRef s' = Some (HTMLInputElement.mk []).
Proof. vm_compute. by repeat split. Qed.

(* ===================================================================== *)
(** ** The properties at sample inputs                                    *)
(* ===================================================================== *)

Lemma generateImageFromImage_payload_witness :
  occurrences comma (UploadedImage.base64 catImage) = 1%nat
  /\ requests
       (events (generateImageFromImage imageBrowser catImage redCube
                  Ratio_9_16 transformState).1)
     = [genai.mkParameters MODEL_NAME
          [genai.mkPart
             (Some (genai.mkBlob (Some (str "image/png")) (Some (str "Q0FU"))))
             None;
           genai.mkPart None (Some redCube)]
          (genai.mkConfig (genai.mkImageConfig Ratio_9_16))].
Proof.
  split; [reflexivity|].
  exact (generateImageFromImage_payload imageBrowser catImage redCube
           Ratio_9_16 transformState eq_refl).
Defined.

(** C2, as stated, fails: with a second comma in the uploaded text the
    inline data sent is only the run between the two commas, not all that
    follows the first; with no comma at all no data is sent. *)
Lemma generateImageFromImage_payload_not_stripped :
  requests
    (events (generateImageFromImage imageBrowser twoCommaImage redCube
               Ratio_1_1 initialState).1)
  = [imageRequest (str "image/png") (Some (str "AA")) redCube Ratio_1_1]
  /\ stripDataUrlPrefix (UploadedImage.base64 twoCommaImage) = str "AA,BB"
  /\ Some (str "AA")
     <> Some (stripDataUrlPrefix (UploadedImage.base64 twoCommaImage))
  /\ requests
       (events (generateImageFromImage imageBrowser noCommaImage redCube
                  Ratio_1_1 initialState).1)
     = [imageRequest (str "image/png") None redCube Ratio_1_1].
Proof. vm_compute. by repeat split. Qed.

Lemma handleGenerate_rejects_invalid_witness :
  invalidSubmission TEXT_TO_IMAGE (str "  ") None
  /\ events (handleGenerate imageBrowser TEXT_TO_IMAGE (str "  ") None
               Ratio_1_1 galleryState).1 = []
  /\ error (handleGenerate imageBrowser TEXT_TO_IMAGE (str "  ") None
              Ratio_1_1 galleryState).1 = Some promptMissingMessage.
Proof.
  assert (H : invalidSubmission TEXT_TO_IMAGE (str "  ") None).
  { left. reflexivity. }
  split; [exact H|].
  destruct (handleGenerate_rejects_invalid imageBrowser _ _ _ Ratio_1_1
              galleryState H) as (_ & He & _ & Hp & _).
  split; [exact He | exact (Hp eq_refl)].
Defined.

Lemma redCube_valid (u : option UploadedImage.t) :
  validSubmission TEXT_TO_IMAGE redCube u.
Proof. split; [vm_compute; discriminate | discriminate]. Defined.

Lemma handleGenerate_prepends_witness :
  validSubmission TEXT_TO_IMAGE redCube None
  /\ generatedImages (clickGenerate imageBrowser galleryState).1
     = [GeneratedImage.mk (str "uuid-1") (str "data:image/png;base64,AAAA")
                          redCube Ratio_1_1 2;
        oldImage].
Proof.
  split; [apply redCube_valid|].
  exact (proj1 (handleGenerate_prepends imageBrowser TEXT_TO_IMAGE redCube
                  None Ratio_1_1 galleryState
                  (requestImage imageBrowser TEXT_TO_IMAGE redCube None
                     Ratio_1_1 (submitting galleryState)).1
                  (str "data:image/png;base64,AAAA")
                  (redCube_valid None) eq_refl)).
Defined.

Lemma handleGenerate_settles_witness :
  validSubmission TEXT_TO_IMAGE redCube None
  /\ loading (clickGenerate safetyBrowser galleryState).1 = idle
  /\ error (clickGenerate safetyBrowser galleryState).1
     = Some safetyErrorMessage.
Proof.
  split; [apply redCube_valid|].
  destruct (handleGenerate_settles safetyBrowser TEXT_TO_IMAGE redCube None
              Ratio_1_1 galleryState (redCube_valid None)) as (_ & Hl & He).
  split; [exact Hl|].
  destruct (He _ (Error (str "Request blocked: SAFETY")) eq_refl)
    as ([_ Hs] & _).
  apply Hs. exists (str "Request blocked: "), []. reflexivity.
Defined.

Lemma handleGenerate_failure_frame_witness :
  (exists s1 e,
     requestImage safetyBrowser TEXT_TO_IMAGE redCube None Ratio_1_1
       (submitting galleryState) = (s1, Throw e))
  /\ generatedImages (clickGenerate safetyBrowser galleryState).1 = [oldImage]
  /\ prompt (clickGenerate safetyBrowser galleryState).1 = redCube.
Proof.
  assert (H : exists s1 e,
     requestImage safetyBrowser TEXT_TO_IMAGE redCube None Ratio_1_1
       (submitting galleryState) = (s1, Throw e)).
  { eexists _, _. reflexivity. }
  split; [exact H|].
  destruct (handleGenerate_failure_frame safetyBrowser TEXT_TO_IMAGE redCube
              None Ratio_1_1 galleryState (or_intror H)) as (Hg & Hp & _).
  exact (conj Hg Hp).
Defined.

(* ===================================================================== *)
(** ** Further properties of the Response Extractor                       *)
(* ===================================================================== *)

Lemma findImagePart_some_iff (ps : list genai.Part) :
  (exists url, findImagePart ps = Some url) <-> Exists carriesInlineData ps.
Proof.
  unfold carriesInlineData. induction ps as [|p ps IH]; simpl.
  - split; [by intros [url H] | by inversion 1].
  - destruct (genai.inlineData p) eqn:E.
    + split; [|by eexists]. intros _. left. by rewrite E.
    + rewrite IH. split; [by right|]. inversion 1; [congruence | done].
Qed.

Lemma findImagePart_none_iff (ps : list genai.Part) :
  findImagePart ps = None <-> Forall (fun p => ~ carriesInlineData p) ps.
Proof.
  split; [|apply findImagePart_none].
  unfold carriesInlineData. induction ps as [|p ps IH]; simpl; [done|].
  destruct (genai.inlineData p) eqn:E; [done|].
  intros H. constructor; [rewrite E; intros Hc; by apply Hc | auto].
Qed.

Lemma findImagePart_header (ps : list genai.Part) (url : jsstring) :
  findImagePart ps = Some url -> exists rest, url = pngDataUrlHeader ++ rest.
Proof.
  induction ps as [|p ps IH]; simpl; [done|].
  destruct (genai.inlineData p); [|done]. intros [= <-]. by eexists.
Qed.

Lemma error_constants_differ : NoCandidateError <> NoImageError.
Proof. vm_compute. discriminate. Qed.

Lemma extractImageFromResponse_header
    (response : genai.GenerateContentResponse) (url : jsstring) :
  extractImageFromResponse response = Return url ->
  startsWith url (str "data:image/png;base64,") = true.
Proof.
  unfold extractImageFromResponse.
  destruct (genai.candidates response) as [cands|]; [|done].
  destruct (N.of_nat (length cands) =? 0); [done|].
  destruct (cands !! 0%nat ≫= genai.content) as [ct|]; [|done].
  destruct (genai.parts ct) as [ps|]; [|done].
  destruct (findImagePart ps) as [url'|] eqn:Ef; [|done].
  intros [= <-]. apply startsWith_spec. apply (findImagePart_header _ _ Ef).
Qed.

(** X1: the four outcomes of the extractor and the replies that give them.
    It throws the no-candidates error exactly when the candidates are
    absent or empty, a type error exactly when the first candidate lacks
    the content or the parts, the no-image error exactly when the parts of
    the first candidate are there and none carries inline data, and it
    returns exactly when one of them does; what it returns starts with the
    PNG header. *)
Theorem extractImageFromResponse_outcomes
    (response : genai.GenerateContentResponse) :
  (extractImageFromResponse response = Throw NoCandidateError
   <-> genai.candidates response = None
       \/ genai.candidates response = Some [])
  /\ ((exists m, extractImageFromResponse response = Throw (TypeError m))
      <-> exists c cs,
            genai.candidates response = Some (c :: cs)
            /\ genai.content c ≫= genai.parts = None)
  /\ (extractImageFromResponse response = Throw NoImageError
      <-> exists c cs ps,
            genai.candidates response = Some (c :: cs)
            /\ genai.content c ≫= genai.parts = Some ps
            /\ Forall (fun p => ~ carriesInlineData p) ps)
  /\ ((exists url, extractImageFromResponse response = Return url)
      <-> exists c cs ps,
            genai.candidates response = Some (c :: cs)
            /\ genai.content c ≫= genai.parts = Some ps
            /\ Exists carriesInlineData ps)
  /\ (forall url,
        extractImageFromResponse response = Return url ->
        startsWith url (str "data:image/png;base64,") = true).
Proof.
  pose proof (extractImageFromResponse_header response) as H5.
  cut ((extractImageFromResponse response = Throw NoCandidateError
        <-> genai.candidates response = None
            \/ genai.candidates response = Some [])
       /\ ((exists m, extractImageFromResponse response = Throw (TypeError m))
           <-> exists c cs,
                 genai.candidates response = Some (c :: cs)
                 /\ genai.content c ≫= genai.parts = None)
       /\ (extractImageFromResponse response = Throw NoImageError
           <-> exists c cs ps,
                 genai.candidates response = Some (c :: cs)
                 /\ genai.content c ≫= genai.parts = Some ps
                 /\ Forall (fun p => ~ carriesInlineData p) ps)
       /\ ((exists url, extractImageFromResponse response = Return url)
           <-> exists c cs ps,
                 genai.candidates response = Some (c :: cs)
                 /\ genai.content c ≫= genai.parts = Some ps
                 /\ Exists carriesInlineData ps)).
  { intros (H1 & H2 & H3 & H4).
    exact (conj H1 (conj H2 (conj H3 (conj H4 H5)))). }
  clear H5. pose proof error_constants_differ as Hd.
  destruct response as [[[|c cs]|]]; unfold extractImageFromResponse; simpl.
  1, 3: repeat split; try done; try (by intros [? ?]);
        try (by intros (? & ? & ? & ?)); try (by intros (? & ? & ? & ? & ?));
        try (by left); by right.
  destruct (genai.content c) as [[[ps|]]|] eqn:Ec; simpl.
  - destruct (findImagePart ps) as [url|] eqn:Ef.
    + repeat split; try done; try (by intros [? ?]).
      * by intros [? | ?].
      * intros (c' & cs' & [= <- <-] & H). by rewrite Ec in H.
      * intros (c' & cs' & ps' & [= <- <-] & H & Hn).
        rewrite Ec in H. simpl in H. injection H as <-.
        apply findImagePart_none in Hn. congruence.
      * intros _. exists c, cs, ps. rewrite Ec. repeat split; try done.
        apply findImagePart_some_iff. by eexists.
      * by eexists.
    + repeat split; try done; try (by intros [? ?]).
      * by intros [? | ?].
      * intros (c' & cs' & [= <- <-] & H). by rewrite Ec in H.
      * intros _. exists c, cs, ps. rewrite Ec. repeat split; try done.
        by apply findImagePart_none_iff.
      * intros (c' & cs' & ps' & [= <- <-] & H & He).
        rewrite Ec in H. simpl in H. injection H as <-.
        apply findImagePart_some_iff in He. destruct He as [url He].
        congruence.
  - repeat split; try done; try (by intros [? ?]).
    + by intros [? | ?].
    + intros _. exists c, cs. by rewrite Ec.
    + by eexists.
    + intros (c' & cs' & ps' & [= <- <-] & H & _). by rewrite Ec in H.
    + intros (c' & cs' & ps' & [= <- <-] & H & _). by rewrite Ec in H.
  - repeat split; try done; try (by intros [? ?]).
    + by intros [? | ?].
    + intros _. exists c, cs. by rewrite Ec.
    + by eexists.
    + intros (c' & cs' & ps' & [= <- <-] & H & _). by rewrite Ec in H.
    + intros (c' & cs' & ps' & [= <- <-] & H & _). by rewrite Ec in H.
Qed.

Lemma findImagePart_stops (before after : list genai.Part) (p : genai.Part) :
  carriesInlineData p ->
  findImagePart (before ++ p :: after) = findImagePart (before ++ [p]).
Proof.
  unfold carriesInlineData. intros Hp.
  induction before as [|q before IH]; simpl.
  - by destruct (genai.inlineData p).
  - by destruct (genai.inlineData q).
Qed.

(** X2: the extractor reads the first candidate only, and of its parts
    none beyond the first that carries inline data: other candidates and
    later parts, whatever they hold, change nothing of the outcome. *)
Theorem extractImageFromResponse_reads_first_only
    (c : genai.Candidate) (cs cs' : list genai.Candidate)
    (before after after' : list genai.Part) (p : genai.Part) :
  extractImageFromResponse (genai.mkResponse (Some (c :: cs)))
  = extractImageFromResponse (genai.mkResponse (Some (c :: cs')))
  /\ (carriesInlineData p ->
      extractImageFromResponse
        (genai.mkResponse
           (Some (genai.mkCandidate
                    (Some (genai.mkContent (Some (before ++ p :: after))))
                  :: cs)))
      = extractImageFromResponse
          (genai.mkResponse
             (Some (genai.mkCandidate
                      (Some (genai.mkContent (Some (before ++ p :: after'))))
                    :: cs')))).
Proof.
  split; [reflexivity|]. intros Hp.
  unfold extractImageFromResponse. simpl.
  by rewrite (findImagePart_stops before after p Hp),
             (findImagePart_stops before after' p Hp).
Qed.

Lemma extractImageFromResponse_reads_first_only_witness :
  carriesInlineData jpegPart
  /\ extractImageFromResponse
       (genai.mkResponse
          (Some [genai.mkCandidate
                   (Some (genai.mkContent
                            (Some ([textPart redCube] ++ jpegPart
                                   :: [textPart redCube]))));
                 genai.mkCandidate None]))
     = extractImageFromResponse (replyWithParts [textPart redCube; jpegPart]).
Proof.
  assert (H : carriesInlineData jpegPart) by (vm_compute; discriminate).
  split; [exact H|].
  exact (proj2 (extractImageFromResponse_reads_first_only
                  (genai.mkCandidate None) [genai.mkCandidate None] []
                  [textPart redCube] [textPart redCube] [] jpegPart) H).
Defined.

(** X3: the returned URL is labelled [image/png] whatever mime type the
    inline data declares: two replies that differ only in the declared
    mime types of their inline data give the same outcome. *)
Theorem extractImageFromResponse_ignores_mimeType
    (ps : list genai.Part) (mime : option jsstring) :
  extractImageFromResponse
    (replyWithParts
       (map (fun p =>
               genai.mkPart
                 (genai.inlineData p ≫= fun b =>
                    Some (genai.mkBlob mime (genai.data b)))
                 (genai.text p)) ps))
  = extractImageFromResponse (replyWithParts ps).
Proof.
  unfold extractImageFromResponse, replyWithParts. simpl.
  assert (H : findImagePart
                (map (fun p =>
                        genai.mkPart
                          (genai.inlineData p ≫= fun b =>
                             Some (genai.mkBlob mime (genai.data b)))
                          (genai.text p)) ps)
              = findImagePart ps).
  { induction ps as [|p ps IH]; simpl; [done|].
    destruct (genai.inlineData p); simpl; [done | apply IH]. }
  by rewrite H.
Qed.

(** X4: no failure of the extractor reads as a safety rejection: whatever
    it throws (the two errors of the source, or the type errors, in V8's
    words), the message derived for the user is the generic one. *)
Theorem extraction_failure_is_generic
    (response : genai.GenerateContentResponse) (e : JsError) :
  extractImageFromResponse response = Throw e ->
  errorMessageOf e = genericErrorMessage.
Proof.
  unfold extractImageFromResponse.
  destruct (genai.candidates response) as [cands|]; [|by intros [= <-]].
  destruct (N.of_nat (length cands) =? 0); [by intros [= <-]|].
  destruct (cands !! 0%nat ≫= genai.content) as [ct|]; [|by intros [= <-]].
  destruct (genai.parts ct) as [ps|]; [|by intros [= <-]].
  destruct (findImagePart ps); [done | by intros [= <-]].
Qed.

Lemma extraction_failure_is_generic_witness :
  extractImageFromResponse replyWithoutContent = Throw AbsentContentError
  /\ errorMessageOf AbsentContentError = genericErrorMessage.
Proof.
  split; [reflexivity|].
  exact (extraction_failure_is_generic replyWithoutContent AbsentContentError
           eq_refl).
Defined.

(* ===================================================================== *)
(** ** Further properties of the service calls and of the handlers        *)
(* ===================================================================== *)

Lemma consoleErrors_app (a b : list Event) :
  consoleErrors (a ++ b) = consoleErrors a ++ consoleErrors b.
Proof. apply omap_app. Qed.

Lemma createdAfter_app
    (browser : Browser) (before evs more : list Event) :
  createdAfter browser before (evs ++ more)
  = createdAfter browser before evs
    ++ createdAfter browser (before ++ evs) more.
Proof.
  revert before; induction evs as [|ev evs IH]; intros before; simpl.
  - by rewrite app_nil_r.
  - destruct ev; rewrite IH, <- app_assoc; done.
Qed.

Section PageProperties.

Variable browser : Browser.

(** X5: each service call returns what the extractor makes of the remote
    answer to its one request, and throws on what the remote call or the
    extractor throws, unchanged; a failure is written to the console once,
    under the label of the call, and a success writes nothing. *)
Theorem service_call_outcome
    (image : UploadedImage.t) (p : jsstring) (a : AspectRatio) (s : State) :
  (let answer := generateContent_answer browser (events s) (textRequest p a) in
   (generateImageFromText browser p a s).2 = outcomeOf answer
   /\ consoleErrors (events (generateImageFromText browser p a s).1)
      = consoleErrors (events s)
        ++ match outcomeOf answer with
           | Return _ => []
           | Throw e => [(Some textErrorLabel, e)]
           end)
  /\ (let q := imageRequest (UploadedImage.mimeType image)
                 (split comma (UploadedImage.base64 image) !! 1%nat) p a in
      let answer := generateContent_answer browser (events s) q in
      (generateImageFromImage browser image p a s).2 = outcomeOf answer
      /\ consoleErrors (events (generateImageFromImage browser image p a s).1)
         = consoleErrors (events s)
           ++ match outcomeOf answer with
              | Return _ => []
              | Throw e => [(Some imageErrorLabel, e)]
              end).
Proof.
  split; cbv zeta.
  - rewrite generateImageFromText_run.
    destruct (outcomeOf _); simpl; rewrite consoleErrors_app; by split.
  - rewrite generateImageFromImage_run.
    destruct (outcomeOf _); simpl; rewrite consoleErrors_app; by split.
Qed.

(** X6: what the image-to-image call sends as inline data, for any text of
    the uploaded image: the run between its first and its second comma
    (to the end without a second one), and no data at all when the text
    has no comma; the request is sent all the same. *)
Theorem generateImageFromImage_inline_data
    (image : UploadedImage.t) (p : jsstring) (a : AspectRatio) (s : State) :
  requests (events (generateImageFromImage browser image p a s).1)
  = requests (events s)
    ++ [imageRequest (UploadedImage.mimeType image)
          (match occurrences comma (UploadedImage.base64 image) with
           | O => None
           | S _ => Some (upTo comma
                            (afterFirst comma (UploadedImage.base64 image)))
           end) p a].
Proof.
  rewrite generateImageFromImage_run, split_second.
  destruct (outcomeOf _); simpl; by rewrite requests_app.
Qed.

(** The awaited call of a valid submission, through the remote answer. *)
Lemma requestImage_valid
    (m : GenerationMode) (p : jsstring) (u : option UploadedImage.t)
    (a : AspectRatio) (s : State) :
  validSubmission m p u ->
  requestImage browser m p u a s
  = match outcomeOf (generateContent_answer browser (events s)
                       (requestOf m p u a)) with
    | Return url =>
      (recordAll [GenerateContent (requestOf m p u a)] s, Return url)
    | Throw e =>
      (recordAll [GenerateContent (requestOf m p u a);
                  ConsoleError (Some (labelOf m)) e] s,
       Throw e)
    end.
Proof.
  intros [_ Hu]. unfold requestImage. destruct m; simpl.
  - apply generateImageFromText_run.
  - destruct u as [image|]; [|by destruct Hu].
    apply generateImageFromImage_run.
Qed.

(** A valid submission from beginning to end, through the remote answer. *)
Lemma handleGenerate_by_answer
    (m : GenerationMode) (p : jsstring) (u : option UploadedImage.t)
    (a : AspectRatio) (s : State) :
  validSubmission m p u ->
  let q := requestOf m p u a in
  handleGenerate browser m p u a s
  = match outcomeOf (generateContent_answer browser (events s) q) with
    | Return url =>
      (mkState (mode s) (prompt s) (aspectRatio s) idle (uploadedImage s)
         (GeneratedImage.mk
            (randomUUID_answer browser (events s ++ [GenerateContent q]))
            url p a
            (now_answer browser (events s ++ [GenerateContent q; RandomUUID]))
          :: generatedImages s)
         None (fileInputRef s)
         (events s ++ [GenerateContent q; RandomUUID; DateNow]),
       Return tt)
    | Throw e =>
      (mkState (mode s) (prompt s) (aspectRatio s) idle (uploadedImage s)
         (generatedImages s) (Some (errorMessageOf e)) (fileInputRef s)
         (events s ++ [GenerateContent q; ConsoleError (Some (labelOf m)) e;
                       ConsoleError None e]),
       Return tt)
    end.
Proof.
  intros Hv q. rewrite (handleGenerate_valid browser _ _ _ _ _ Hv).
  rewrite (requestImage_valid _ _ _ _ _ Hv). fold q. simpl.
  destruct (outcomeOf _); simpl; by rewrite <- !app_assoc.
Qed.

(** X7: after a valid submission the console holds, beyond what it held,
    nothing when the call gave an image, and the thrown error twice when
    it failed: once under the label of the service call, once bare from
    the handler. The error cell is empty after a success and holds the
    derived message after a failure, and the history is one image longer
    exactly after a success. *)
Theorem handleGenerate_console_and_error
    (m : GenerationMode) (p : jsstring) (u : option UploadedImage.t)
    (a : AspectRatio) (s : State) :
  validSubmission m p u ->
  let s' := (handleGenerate browser m p u a s).1 in
  let outcome :=
    outcomeOf (generateContent_answer browser (events s)
                 (requestOf m p u a)) in
  consoleErrors (events s')
  = consoleErrors (events s)
    ++ match outcome with
       | Return _ => []
       | Throw e => [(Some (labelOf m), e); (None, e)]
       end
  /\ error s' = match outcome with
               | Return _ => None
               | Throw e => Some (errorMessageOf e)
               end
  /\ length (generatedImages s')
     = (length (generatedImages s)
        + match outcome with Return _ => 1 | Throw _ => 0 end)%nat.
Proof.
  intros Hv. cbv zeta. rewrite (handleGenerate_by_answer _ _ _ _ _ Hv).
  destruct (outcomeOf _); simpl; rewrite consoleErrors_app; simpl;
    repeat split; try done; lia.
Qed.

Lemma handleFileChange_run (files : option (list File.t)) (s : State) :
  handleFileChange browser files s
  = match files ≫= (fun fs => fs !! 0%nat) with
    | None => (s, Return tt)
    | Some file =>
      match readAsDataURL_answer browser (events s) file with
      | Return base64 =>
        (mkState (mode s) (prompt s) (aspectRatio s) (loading s)
           (Some (UploadedImage.mk file
                    (createObjectURL_answer browser
                       (events s ++ [ReadAsDataURL file]) file)
                    base64 (File.type file)))
           (generatedImages s) None (fileInputRef s)
           (events s ++ [ReadAsDataURL file; CreateObjectURL file]),
         Return tt)
      | Throw e =>
        (mkState (mode s) (prompt s) (aspectRatio s) (loading s)
           (uploadedImage s) (generatedImages s) (Some fileErrorMessage)
           (fileInputRef s) (events s ++ [ReadAsDataURL file]),
         Return tt)
      end
    end.
Proof.
  unfold handleFileChange.
  destruct (files ≫= _) as [file|]; [|done].
  unfold tryCatch, bind, fileToBase64, createObjectURL, setUploadedImage,
    setError. simpl.
  destruct (readAsDataURL_answer browser (events s) file); simpl;
    by rewrite <- ?app_assoc.
Qed.

Lemma removeUploadedImage_run (u : option UploadedImage.t) (s : State) :
  removeUploadedImage u s
  = (mkState (mode s) (prompt s) (aspectRatio s) (loading s) None
       (generatedImages s) (error s)
       (match fileInputRef s with
        | Some _ => Some (HTMLInputElement.mk [])
        | None => None
        end)
       (events s
        ++ match u with
           | Some image => [RevokeObjectURL (UploadedImage.previewUrl image)]
           | None => []
           end),
     Return tt).
Proof.
  destruct u; [reflexivity|].
  unfold removeUploadedImage, bind, ret, setUploadedImage, setFileInputValue.
  simpl. by rewrite app_nil_r.
Qed.

(** The ways an action can go, each with the state it leaves. *)
Ltac perform_cases act s :=
  destruct act as [newMode|value|ratio|files| |]; simpl;
  [ | |
  | rewrite handleFileChange_run;
    destruct (files ≫= _) as [file|];
    [destruct (readAsDataURL_answer browser (events s) file) as [base64|e]|]
  | unfold clickRemove; rewrite removeUploadedImage_run;
    destruct (uploadedImage s) as [image|] eqn:Eu
  | unfold clickGenerate;
    destruct (submission_valid_or_invalid (mode s) (prompt s)
                (uploadedImage s)) as [Hv|Hi];
    [ rewrite (handleGenerate_by_answer _ _ _ _ _ Hv); cbv zeta;
      destruct (outcomeOf _) as [url|e]
    | rewrite (handleGenerate_invalid browser _ _ _ _ _ Hi) ] ];
  simpl.

Lemma perform_requests (act : Action) (s : State) :
  requests (events (perform browser act s).1) = requests (events s)
  \/ (act = Generate
      /\ exists q,
           requests (events (perform browser act s).1)
           = requests (events s) ++ [q]).
Proof.
  perform_cases act s; rewrite ?requests_app; simpl; rewrite ?app_nil_r;
    try (by left); right; split; try done; by eexists.
Qed.

(** X9: only the generate action reaches the remote model, and at most
    once each time: over any sequence of actions the requests sent are
    those sent before followed by at most as many as there are generate
    actions in the sequence. *)
Theorem performAll_requests (acts : list Action) (s : State) :
  exists sent,
    requests (events (performAll browser acts s))
    = requests (events s) ++ sent
    /\ (length sent <= length (List.filter isGenerate acts))%nat.
Proof.
  revert s; induction acts as [|act acts IH]; intros s; simpl.
  - exists []. by rewrite app_nil_r.
  - destruct (IH (perform browser act s).1) as (sent & -> & Hl).
    destruct (perform_requests act s) as [-> | [-> [q ->]]].
    + exists sent. split; [done|]. destruct (isGenerate act); simpl; lia.
    + exists (q :: sent). rewrite <- app_assoc. split; [done|]. simpl. lia.
Qed.

Lemma perform_loading (act : Action) (s : State) :
  loading (perform browser act s).1 = loading s
  \/ loading (perform browser act s).1 = idle.
Proof. perform_cases act s; (by left) || (by right). Qed.

(** X10: no action leaves the page loading: when the loading flag is off,
    it is off again after any sequence of actions, and the button shows
    its own text. *)
Theorem performAll_stays_interactive (acts : list Action) (s : State) :
  LoadingState.isLoading (loading s) = false ->
  LoadingState.isLoading (loading (performAll browser acts s)) = false
  /\ renderButtonText (performAll browser acts s) = buttonText.
Proof.
  intros H.
  assert (Hl : LoadingState.isLoading
                 (loading (performAll browser acts s)) = false).
  { revert s H; induction acts as [|act acts IH]; intros s H; simpl; [done|].
    apply IH. by destruct (perform_loading act s) as [-> | ->]. }
  split; [done|]. unfold renderButtonText. by rewrite Hl.
Qed.

(** X11: a file that reads well becomes the uploaded image: its preview is
    the object URL created for it after the read, its text is what the
    reader gave, its mime type is the type of the file (not what the data
    URL says); the error is cleared; of a selection of several files only
    the first counts; nothing else of the page changes and the remote
    model is not called. *)
Theorem handleFileChange_success
    (file : File.t) (others : list File.t) (dataUrl : jsstring) (s : State) :
  readAsDataURL_answer browser (events s) file = Return dataUrl ->
  let s' := (handleFileChange browser (Some (file :: others)) s).1 in
  uploadedImage s'
  = Some (UploadedImage.mk file
            (createObjectURL_answer browser
               (events s ++ [ReadAsDataURL file]) file)
            dataUrl (File.type file))
  /\ error s' = None
  /\ events s' = events s ++ [ReadAsDataURL file; CreateObjectURL file]
  /\ mode s' = mode s /\ prompt s' = prompt s
  /\ aspectRatio s' = aspectRatio s /\ loading s' = loading s
  /\ generatedImages s' = generatedImages s
  /\ fileInputRef s' = fileInputRef s.
Proof.
  intros H. cbv zeta. rewrite handleFileChange_run. simpl. rewrite H.
  by repeat split.
Qed.

(** X12: a file that cannot be read leaves the uploaded image as it was
    (a previous upload stays), creates no object URL and shows the file
    error; and a change event without a file (no list, or an empty one)
    changes nothing at all, not even the error. *)
Theorem handleFileChange_failure
    (files : option (list File.t)) (s : State) :
  ((files = None \/ files = Some []) ->
   handleFileChange browser files s = (s, Return tt))
  /\ (forall file others e,
        files = Some (file :: others) ->
        readAsDataURL_answer browser (events s) file = Throw e ->
        let s' := (handleFileChange browser files s).1 in
        uploadedImage s' = uploadedImage s
        /\ error s' = Some fileErrorMessage
        /\ events s' = events s ++ [ReadAsDataURL file]
        /\ created browser (events s') = created browser (events s)
        /\ mode s' = mode s /\ prompt s' = prompt s
        /\ aspectRatio s' = aspectRatio s /\ loading s' = loading s
        /\ generatedImages s' = generatedImages s).
Proof.
  split.
  - intros [-> | ->]; by rewrite handleFileChange_run.
  - intros file others e -> H. cbv zeta. rewrite handleFileChange_run.
    simpl. rewrite H. simpl. unfold created.
    rewrite createdAfter_app. simpl. rewrite app_nil_r. by repeat split.
Qed.

(** X13: a valid submission sends exactly one request, chosen by the mode:
    in image-to-image mode the image request built from the uploaded
    image, and in text-to-image mode the text request, an uploaded image
    that is still there being left out of it. *)
Theorem handleGenerate_one_request_by_mode
    (m : GenerationMode) (p : jsstring) (u : option UploadedImage.t)
    (a : AspectRatio) (s : State) :
  validSubmission m p u ->
  requests (events (handleGenerate browser m p u a s).1)
  = requests (events s) ++ [requestOf m p u a]
  /\ (m = TEXT_TO_IMAGE -> requestOf m p u a = textRequest p a)
  /\ (forall image,
        m = IMAGE_TO_IMAGE -> u = Some image ->
        requestOf m p u a
        = imageRequest (UploadedImage.mimeType image)
            (split comma (UploadedImage.base64 image) !! 1%nat) p a).
Proof.
  intros Hv. split; [|split].
  - rewrite (handleGenerate_by_answer _ _ _ _ _ Hv). cbv zeta.
    destruct (outcomeOf _); simpl; rewrite requests_app; simpl;
      by rewrite ?app_nil_r.
  - by intros ->.
  - by intros image -> ->.
Qed.

(** X14: upload, then generate. On the page in image-to-image mode with a
    prompt that is not blank, choosing a file that the reader turns into a
    text with exactly one comma and then generating sends one request whose
    inline data is that text after its comma, under the type of the file,
    followed by the prompt. *)
Theorem upload_then_generate
    (file : File.t) (others : list File.t) (dataUrl : jsstring) (s : State) :
  mode s = IMAGE_TO_IMAGE ->
  trim (prompt s) <> [] ->
  readAsDataURL_answer browser (events s) file = Return dataUrl ->
  occurrences comma dataUrl = 1%nat ->
  requests
    (events (performAll browser
               [ChooseFile (Some (file :: others)); Generate] s))
  = requests (events s)
    ++ [genai.mkParameters MODEL_NAME
          [genai.mkPart
             (Some (genai.mkBlob (Some (File.type file))
                                 (Some (afterFirst comma dataUrl))))
             None;
           genai.mkPart None (Some (prompt s))]
          (genai.mkConfig (genai.mkImageConfig (aspectRatio s)))].
Proof.
  intros Hm Hp Hr Hc. simpl. rewrite handleFileChange_run. simpl.
  rewrite Hr. unfold clickGenerate. simpl. rewrite Hm.
  rewrite handleGenerate_by_answer by (split; [done | by intros _]).
  cbv zeta. simpl. rewrite (split_comma_strips_prefix _ Hc).
  destruct (outcomeOf _); simpl; rewrite !requests_app; simpl;
    by rewrite ?app_nil_r.
Qed.

Lemma perform_previews (act : Action) (s : State) :
  previewsAccounted browser s ->
  offered s act ->
  previewsAccounted browser (perform browser act s).1.
Proof.
  unfold previewsAccounted, created, offered, renderUploadArea.
  intros Hs Ho. perform_cases act s;
    rewrite ?createdAfter_app, ?revoked_app; simpl; rewrite ?app_nil_r;
    try done.
  - destruct (GenerationMode_eqb (mode s) IMAGE_TO_IMAGE); [|done].
    destruct (uploadedImage s); [done|].
    rewrite app_nil_r in Hs. by rewrite Hs.
  - by rewrite app_nil_r in Hs.
Qed.

(** X15: object URLs on the page as it is offered. If the file dialog is
    opened from the drop zone only and the removal pressed on the preview
    only, each action completing before the next, then at every moment all
    object URLs handed out have been released, in order, except the
    preview of the uploaded image of the moment: none leaks. *)
Theorem performAll_previews_accounted (acts : list Action) (s : State) :
  previewsAccounted browser s ->
  offeredAll browser acts s ->
  previewsAccounted browser (performAll browser acts s).
Proof.
  revert s; induction acts as [|act acts IH]; intros s Hs Ho; simpl; [done|].
  destruct Ho as [Ho Hrest]. apply IH; [|done]. by apply perform_previews.
Qed.

Lemma perform_error (act : Action) (s : State) :
  error (perform browser act s).1 = error s
  \/ error (perform browser act s).1 = None
  \/ exists text,
       error (perform browser act s).1 = Some text /\ truthy text = true.
Proof.
  perform_cases act s; try (by left); try (by right; left);
    right; right; eexists; (split; [reflexivity|]); try done.
  - rewrite errorMessageOf_includes. by destruct (includes _ _).
  - by destruct (truthy (trim (prompt s))).
Qed.

(** X16: whatever the handlers put in the error cell is shown: every
    message they set is a non-empty text, so on a page whose banner shows
    its error cell (as the fresh page does) the banner still shows the
    error cell after any sequence of actions. *)
Theorem performAll_banner_shows_error (acts : list Action) (s : State) :
  renderErrorBanner s = error s ->
  renderErrorBanner (performAll browser acts s)
  = error (performAll browser acts s).
Proof.
  revert s; induction acts as [|act acts IH]; intros s Hs; simpl; [done|].
  apply IH. unfold renderErrorBanner in *.
  destruct (perform_error act s) as [-> | [-> | (text & -> & ->)]]; done.
Qed.


(** X18: after the removal, generating in image-to-image mode with a
    prompt that is not blank is refused: the missing-image message shows,
    no request is sent and the slot stays empty. *)
Theorem remove_then_generate (s : State) :
  mode s = IMAGE_TO_IMAGE ->
  trim (prompt s) <> [] ->
  let s' := performAll browser [RemoveImage; Generate] s in
  error s' = Some imageMissingMessage
  /\ requests (events s') = requests (events s)
  /\ uploadedImage s' = None
  /\ generatedImages s' = generatedImages s.
Proof.
  intros Hm Hp. cbv zeta. simpl. unfold clickRemove.
  rewrite removeUploadedImage_run. unfold clickGenerate. simpl. rewrite Hm.
  rewrite (handleGenerate_invalid browser) by (by right).
  simpl. destruct (trim (prompt s)); [done|]. simpl.
  rewrite requests_app.
  destruct (uploadedImage s); simpl; by rewrite app_nil_r.
Qed.

(** X19: the results column after a successful generation: the new image
    is the main one, shown under the class of the selected ratio, with the
    prompt as its caption and [visionary-<id>.png] as its download name,
    and the images stored before form the strip, the previous main image
    first; without earlier images there is no strip. *)
Theorem renderResults_after_success
    (m : GenerationMode) (p : jsstring) (u : option UploadedImage.t)
    (a : AspectRatio) (s : State) (url : jsstring) :
  validSubmission m p u ->
  outcomeOf (generateContent_answer browser (events s) (requestOf m p u a))
  = Return url ->
  renderResults (generatedImages (handleGenerate browser m p u a s).1)
  = Gallery
      (mkMainImage (getAspectRatioClass a) url p p url
         (str "visionary-"
          ++ randomUUID_answer browser
               (events s ++ [GenerateContent (requestOf m p u a)])
          ++ str ".png"))
      (match generatedImages s with
       | [] => None
       | _ :: _ => Some (map renderThumbnail (generatedImages s))
       end).
Proof.
  intros Hv Ho. rewrite (handleGenerate_by_answer _ _ _ _ _ Hv). cbv zeta.
  rewrite Ho. simpl. unfold renderResults. simpl.
  by destruct (generatedImages s).
Qed.

End PageProperties.

(** X20: the results column shows every stored image once, in the order of
    the history: the empty state for no image; otherwise the first as the
    main image and the others, when there are any, as the strip. *)
Theorem renderResults_shows_history (images : list GeneratedImage.t) :
  (renderResults images = EmptyState <-> images = [])
  /\ forall main strip,
       renderResults images = Gallery main strip ->
       main_src main :: map thumb_src (default [] strip)
       = map GeneratedImage.url images
       /\ (strip = None <-> length images = 1%nat)
       /\ (forall thumbs, strip = Some thumbs ->
           map thumb_key thumbs = map GeneratedImage.id (drop 1 images)).
Proof.
  split.
  - by destruct images.
  - intros main strip. destruct images as [|latest older]; [done|].
    unfold renderResults. intros [= <- <-].
    destruct older as [|second older]; simpl.
    + repeat split; done.
    + repeat split; try done.
      * do 2 f_equal. by rewrite map_map.
      * intros thumbs [= <-]. simpl. f_equal. by rewrite map_map.
Qed.

(* ===================================================================== *)
(** ** The further properties at sample inputs                            *)
(* ===================================================================== *)

Lemma handleGenerate_console_and_error_witness :
  validSubmission TEXT_TO_IMAGE redCube None
  /\ consoleErrors (events (clickGenerate safetyBrowser galleryState).1)
     = [(Some textErrorLabel, Error (str "Request blocked: SAFETY"));
        (None, Error (str "Request blocked: SAFETY"))].
Proof.
  split; [apply redCube_valid|].
  exact (proj1 (handleGenerate_console_and_error safetyBrowser TEXT_TO_IMAGE
                  redCube None Ratio_1_1 galleryState (redCube_valid None))).
Defined.

Lemma performAll_stays_interactive_witness :
  LoadingState.isLoading (loading galleryState) = false
  /\ LoadingState.isLoading
       (loading (performAll safetyBrowser
                   [Generate; SwitchMode IMAGE_TO_IMAGE; Generate]
                   galleryState)) = false.
Proof.
  split; [reflexivity|].
  exact (proj1 (performAll_stays_interactive safetyBrowser
                  [Generate; SwitchMode IMAGE_TO_IMAGE; Generate]
                  galleryState eq_refl)).
Defined.

Lemma handleFileChange_success_witness :
  readAsDataURL_answer imageBrowser (events uploadState) dogFile
  = Return pictureDataUrl
  /\ uploadedImage
       (handleFileChange imageBrowser (Some [dogFile; catFile]) uploadState).1
     = Some (UploadedImage.mk dogFile (str "blob:1") pictureDataUrl
                              (str "image/png")).
Proof.
  split; [reflexivity|].
  exact (proj1 (handleFileChange_success imageBrowser dogFile [catFile]
                  pictureDataUrl uploadState eq_refl)).
Defined.

Lemma handleFileChange_failure_witness :
  readAsDataURL_answer brokenReaderBrowser (events transformState) dogFile
  = Throw (Error (str "NotReadableError"))
  /\ uploadedImage
       (handleFileChange brokenReaderBrowser (Some [dogFile]) transformState).1
     = Some catImage
  /\ error
       (handleFileChange brokenReaderBrowser (Some [dogFile]) transformState).1
     = Some fileErrorMessage.
Proof.
  split; [reflexivity|].
  destruct (proj2 (handleFileChange_failure brokenReaderBrowser
                     (Some [dogFile]) transformState)
              dogFile [] (Error (str "NotReadableError")) eq_refl eq_refl)
    as (Hu & He & _).
  exact (conj Hu He).
Defined.

Lemma redCube_valid_any (m : GenerationMode) :
  validSubmission m redCube (Some catImage).
Proof. split; [vm_compute; discriminate | discriminate]. Defined.

Lemma handleGenerate_one_request_by_mode_witness :
  validSubmission TEXT_TO_IMAGE redCube (Some catImage)
  /\ requests
       (events (handleGenerate imageBrowser TEXT_TO_IMAGE redCube
                  (Some catImage) Ratio_1_1 galleryState).1)
     = [textRequest redCube Ratio_1_1].
Proof.
  split; [apply redCube_valid_any|].
  exact (proj1 (handleGenerate_one_request_by_mode imageBrowser TEXT_TO_IMAGE
                  redCube (Some catImage) Ratio_1_1 galleryState
                  (redCube_valid_any TEXT_TO_IMAGE))).
Defined.

Lemma redCube_not_blank : trim redCube <> [].
Proof. vm_compute. discriminate. Defined.

Lemma upload_then_generate_witness :
  mode transformState = IMAGE_TO_IMAGE
  /\ occurrences comma pictureDataUrl = 1%nat
  /\ requests
       (events (performAll imageBrowser
                  [ChooseFile (Some [dogFile]); Generate] transformState))
     = [imageRequest (str "image/png") (Some (str "RE9H")) redCube Ratio_1_1].
Proof.
  split; [reflexivity|]. split; [reflexivity|].
  exact (upload_then_generate imageBrowser dogFile [] pictureDataUrl
           transformState eq_refl redCube_not_blank eq_refl eq_refl).
Defined.

Lemma performAll_previews_accounted_witness :
  previewsAccounted imageBrowser uploadState
  /\ offeredAll imageBrowser
       [ChooseFile (Some [catFile]); RemoveImage;
        ChooseFile (Some [dogFile]); Generate] uploadState
  /\ previewsAccounted imageBrowser
       (performAll imageBrowser
          [ChooseFile (Some [catFile]); RemoveImage;
           ChooseFile (Some [dogFile]); Generate] uploadState).
Proof.
  assert (H0 : previewsAccounted imageBrowser uploadState) by reflexivity.
  assert (H1 : offeredAll imageBrowser
                 [ChooseFile (Some [catFile]); RemoveImage;
                  ChooseFile (Some [dogFile]); Generate] uploadState).
  { simpl. repeat split; try reflexivity. eexists. reflexivity. }
  split; [exact H0|]. split; [exact H1|].
  exact (performAll_previews_accounted imageBrowser _ uploadState H0 H1).
Defined.

Lemma performAll_banner_shows_error_witness :
  renderErrorBanner galleryState = error galleryState
  /\ renderErrorBanner (performAll safetyBrowser [Generate] galleryState)
     = Some safetyErrorMessage.
Proof.
  split; [reflexivity|].
  exact (eq_trans
           (performAll_banner_shows_error safetyBrowser [Generate]
              galleryState eq_refl)
           eq_refl).
Defined.

Lemma remove_then_generate_witness :
  mode transformState = IMAGE_TO_IMAGE
  /\ error (performAll imageBrowser [RemoveImage; Generate] transformState)
     = Some imageMissingMessage
  /\ requests
       (events (performAll imageBrowser [RemoveImage; Generate]
                  transformState)) = [].
Proof.
  split; [reflexivity|].
  destruct (remove_then_generate imageBrowser transformState eq_refl
              redCube_not_blank) as (He & Hr & _).
  exact (conj He Hr).
Defined.

Lemma renderResults_after_success_witness :
  validSubmission TEXT_TO_IMAGE redCube None
  /\ renderResults (generatedImages (clickGenerate imageBrowser galleryState).1)
     = Gallery
         (mkMainImage aspect_square (str "data:image/png;base64,AAAA")
            redCube redCube (str "data:image/png;base64,AAAA")
            (str "visionary-uuid-1.png"))
         (Some [renderThumbnail oldImage]).
Proof.
  split; [apply redCube_valid|].
  exact (renderResults_after_success imageBrowser TEXT_TO_IMAGE redCube None
           Ratio_1_1 galleryState (str "data:image/png;base64,AAAA")
           (redCube_valid None) eq_refl).
Defined.
